(** * VirtualTouchpadEvdev: the per-touchpad evdev event state machine

    A shallow embedding of
    [services/vr/virtual_touchpad/VirtualTouchpadEvdev.cpp] and the
    properties its specification states about it.

    - C [float] values are IEEE 754 binary32 numbers, modelled with the
      standard library's [spec_float] at precision 24 and exponent bound 128;
    - [int] and [int32_t] values are modelled in [Z];
    - an injector object is modelled by the sequence of calls it has
      received;
    - operations whose C++ behaviour is undefined on some input (a
      floating-point value that does not fit [int32_t]) return [None] there. *)

From Stdlib Require Import ZArith QArith Qround Qabs Qpower Lia Bool List String Ascii.
From Stdlib Require Import Floats.SpecFloat DecimalString HexString.
From stdpp Require Import base option list strings.

Local Open Scope Z_scope.

(** ** Binary32 floating point *)

Definition prec : Z := 24.
Definition emax : Z := 128.

Abbreviation float := spec_float (only parsing).

(** A [spec_float] is a binary32 value when its mantissa and exponent are
    in canonical form for precision 24. *)
Definition is_float (x : float) : Prop := valid_binary prec emax x = true.

(** Conversion of an integer constant to [float] (round to nearest even). *)
Definition float_of_int (n : Z) : float := binary_normalize prec emax n 0 false.

Definition fmul (x y : float) : float := SFmul prec emax x y.
Definition flt (x y : float) : bool := SFltb x y.
Definition fle (x y : float) : bool := SFleb x y.
Definition fgt (x y : float) : bool := SFltb y x.
Definition fge (x y : float) : bool := SFleb y x.

Definition INT32_MIN : Z := - 2 ^ 31.
Definition INT32_MAX : Z := 2 ^ 31 - 1.

(** Floating to integral conversion: the fractional part is discarded; the
    behaviour is undefined when the truncated value is not representable. *)
Definition float_to_int32 (x : float) : option Z :=
  match x with
  | S754_zero _ => Some 0
  | S754_finite s m e =>
      let t := cond_Zopp s (Z.shiftl (Z.pos m) e) in
      if (INT32_MIN <=? t) && (t <=? INT32_MAX) then Some t else None
  | _ => None
  end.

(** [fabs] on a [float].  Where the call resolves to the [double] version,
    the argument is widened and the result narrowed again by [ceilf]; both
    conversions are exact, so the value is the same. *)
Definition fabs (x : float) : float := SFabs x.

(** [ceilf]: the least integral value not below [x], keeping the sign of a
    zero result. *)
Definition ceilf (x : float) : float :=
  match x with
  | S754_finite s m e =>
      if 0 <=? e then x
      else binary_normalize prec emax
             (- Z.shiftl (- cond_Zopp s (Z.pos m)) e) 0 s
  | _ => x
  end.

Definition signbit (x : float) : bool :=
  match x with
  | S754_zero s | S754_infinity s | S754_finite s _ _ => s
  | S754_nan => false
  end.

(** [copysignf x y]: the magnitude of [x] with the sign of [y]. *)
Definition copysignf (x y : float) : float :=
  match x with
  | S754_zero _ => S754_zero (signbit y)
  | S754_infinity _ => S754_infinity (signbit y)
  | S754_finite _ m e => S754_finite (signbit y) m e
  | S754_nan => S754_nan
  end.

(** The rational number a float denotes (0 for infinities and NaN). *)
Definition SF2Q (x : float) : Q :=
  match x with
  | S754_finite s m e => inject_Z (cond_Zopp s (Z.pos m)) * 2 ^ e
  | _ => 0
  end.

(** Floating-point literals of the source. *)
Definition f_0_0 : float := S754_zero false.
Definition f_1_0 : float := S754_finite false 8388608 (-23).
Definition f_4_0 : float := S754_finite false 8388608 (-21).
Definition f_m1_0 : float := S754_finite true 8388608 (-23).

(** The sign of a rational number, as [-1], [0] or [1]. *)
Definition Qsign (q : Q) : Z := Z.sgn (Qnum q).

(** ** Constants *)

(** From [errno.h], [linux/input.h] and [utils/Errors.h]. *)
Definition EINVAL : Z := 22.
Definition ENOTSUP : Z := 95.
Definition BUS_VIRTUAL : Z := 0x06.
Definition INPUT_PROP_DIRECT : Z := 0x01.
Definition BTN_TOUCH : Z := 0x14a.
Definition BTN_BACK : Z := 0x116.
Definition REL_HWHEEL : Z := 0x06.
Definition REL_WHEEL : Z := 0x08.
Definition OK : Z := 0.

(** ** Text formatting used by the dump and the device names *)

Definition LF : string := String "010" EmptyString.

(** [%d] *)
Definition format_d (n : Z) : string := NilZero.string_of_int (Z.to_int n).

Definition to_upper (c : ascii) : ascii :=
  let n := nat_of_ascii c in
  if ((97 <=? n) && (n <=? 122))%nat then ascii_of_nat (n - 32) else c.

Fixpoint string_map (f : ascii -> ascii) (s : string) : string :=
  match s with
  | EmptyString => EmptyString
  | String c r => String (f c) (string_map f r)
  end.

(** [%X] applied to a 32-bit value. *)
Definition format_X32 (n : Z) : string :=
  match n mod 2 ^ 32 with
  | Z.pos p => string_map to_upper (HexString.Raw.of_pos p EmptyString)
  | _ => "0"
  end.

(** Of the translation unit itself. *)

(** ["vr-virtual-touchpad-%d"] applied to [i]. *)
Definition kDeviceNameFormat (i : Z) : string :=
  "vr-virtual-touchpad-" +:+ format_d i.
Definition kDeviceBusType : Z := BUS_VIRTUAL.
Definition kDeviceVendor : Z := 0.
Definition kDeviceProduct : Z := 0.
Definition kDeviceVersion : Z := 0x0001.

Definition kWidth : Z := 0x10000.
Definition kHeight : Z := 0x10000.
Definition kSlots : Z := 2.

(** ** The injector

    [EvdevInjector] is defined outside this translation unit.  An injector
    object is represented by the calls made on it, oldest first. *)

Inductive call : Type :=
  | Close
  | ConfigureBegin (device_name : string) (bustype vendor product version : Z)
  | ConfigureInputProperty (property : Z)
  | ConfigureMultiTouchXY (x0 y0 x1 y1 : Z)
  | ConfigureAbsSlots (slots : Z)
  | ConfigureKey (key : Z)
  | ConfigureEnd
  | ResetError
  | SendSynReport
  | SendKey (code value : Z)
  | SendRel (code value : Z)
  | SendMultiTouchXY (slot id x y : Z)
  | SendMultiTouchLift (slot : Z).

Record EvdevInjector : Type := { received : list call }.

(** A freshly constructed injector. *)
Definition new_EvdevInjector : EvdevInjector := {| received := [] |}.

(** [inj ~> c]: the injector after the call [c] on it. *)
Definition invoke (inj : EvdevInjector) (c : call) : EvdevInjector :=
  {| received := received inj ++ [c] |}.

Notation "inj ~> c" := (invoke inj c) (at level 45, left associativity).

(** The calls that emit an input event or a synchronization barrier. *)
Definition is_emission (c : call) : bool :=
  match c with
  | SendSynReport | SendKey _ _ | SendRel _ _
  | SendMultiTouchXY _ _ _ _ | SendMultiTouchLift _ => true
  | _ => false
  end.

(** What the translation unit takes from headers that are not part of the
    sources: the enumerators of [EvdevInjector], the button bit of
    [android/input.h], and the two queries on an injector whose result the
    injector decides. *)
Class Declarations : Type := {
  ERROR_SEQUENCING : Z;
  KEY_PRESS : Z;
  KEY_RELEASE : Z;
  AMOTION_EVENT_BUTTON_BACK : Z;
  (** [injector->GetError()] *)
  GetError : EvdevInjector -> Z;
  (** [injector->dumpInternal(result)], as a function of the text so far *)
  injector_dumpInternal : EvdevInjector -> string -> string
}.

(** ** Per-touchpad state *)

(** [injector] is the object the raw pointer designates ([None] for
    [nullptr]); [owned_injector] tells whether the [unique_ptr] holds an
    object, which is then the one [injector] designates. *)
Record Touchpad : Type := {
  owned_injector : bool;
  injector : option EvdevInjector;
  last_device_x : Z;
  last_device_y : Z;
  touches : Z;
  last_motion_event_buttons : Z
}.

Definition set_injector (owned : bool) (inj : option EvdevInjector) (t : Touchpad) : Touchpad :=
  {| owned_injector := owned; injector := inj;
     last_device_x := last_device_x t; last_device_y := last_device_y t;
     touches := touches t;
     last_motion_event_buttons := last_motion_event_buttons t |}.

Definition set_last_device (x y : Z) (t : Touchpad) : Touchpad :=
  {| owned_injector := owned_injector t; injector := injector t;
     last_device_x := x; last_device_y := y;
     touches := touches t;
     last_motion_event_buttons := last_motion_event_buttons t |}.

Definition set_touches (v : Z) (t : Touchpad) : Touchpad :=
  {| owned_injector := owned_injector t; injector := injector t;
     last_device_x := last_device_x t; last_device_y := last_device_y t;
     touches := v;
     last_motion_event_buttons := last_motion_event_buttons t |}.

Definition set_last_motion_event_buttons (v : Z) (t : Touchpad) : Touchpad :=
  {| owned_injector := owned_injector t; injector := injector t;
     last_device_x := last_device_x t; last_device_y := last_device_y t;
     touches := touches t;
     last_motion_event_buttons := v |}.

(** The manager is its array [touchpad_]; [kTouchpads], declared in the
    class header, is the length of that array. *)
Abbreviation VirtualTouchpadEvdev := (list Touchpad) (only parsing).

Definition kTouchpads (self : VirtualTouchpadEvdev) : Z := Z.of_nat (length self).

(** ** Operations *)

(** [int32_t device = v * extent], with [extent] one of [kWidth], [kHeight]. *)
Definition device_coordinate (v : float) (extent : Z) : option Z :=
  float_to_int32 (fmul v (float_of_int extent)).

Definition scale_relative_scroll (x : float) : option Z :=
  float_to_int32 (copysignf (ceilf (fabs (fmul f_4_0 x))) x).

Section Operations.

Context `{Declarations}.

(** [Reset] on one array element.  The [Close] call goes to an object the
    manager lets go of in the same step, so no field records it. *)
Definition Reset_touchpad (touchpad : Touchpad) : Touchpad :=
  {| owned_injector := false;
     injector := None;
     last_device_x := INT32_MIN;
     last_device_y := INT32_MIN;
     touches := 0;
     last_motion_event_buttons := 0 |}.

Definition Reset (self : VirtualTouchpadEvdev) : VirtualTouchpadEvdev :=
  map Reset_touchpad self.

(** [Create] for an array of [n] touchpads: construction, then [Reset]. *)
Definition Create (n : nat) : VirtualTouchpadEvdev :=
  Reset (replicate n
    {| owned_injector := false; injector := None;
       last_device_x := 0; last_device_y := 0;
       touches := 0; last_motion_event_buttons := 0 |}).

(** The configuration calls of [Attach] on the injector of touchpad [i]. *)
Definition Attach_configure (i : Z) (inj : EvdevInjector) : EvdevInjector :=
  let DeviceName := kDeviceNameFormat i in
  inj ~> ConfigureBegin DeviceName kDeviceBusType kDeviceVendor
           kDeviceProduct kDeviceVersion
      ~> ConfigureInputProperty INPUT_PROP_DIRECT
      ~> ConfigureMultiTouchXY 0 0 (kWidth - 1) (kHeight - 1)
      ~> ConfigureAbsSlots kSlots
      ~> ConfigureKey BTN_TOUCH
      ~> ConfigureKey BTN_BACK
      ~> ConfigureEnd.

(** The loop of [Attach] from index [i] on. *)
Fixpoint Attach_loop (i : Z) (touchpads : list Touchpad) (status : Z)
  : Z * list Touchpad :=
  match touchpads with
  | [] => (status, [])
  | touchpad :: rest =>
      let '(owned, inj) :=
        match injector touchpad with
        | None => (true, new_EvdevInjector)
        | Some inj => (owned_injector touchpad, inj)
        end in
      let inj := Attach_configure i inj in
      let touchpad := set_injector owned (Some inj) touchpad in
      let configuration_status := GetError inj in
      let status :=
        if configuration_status =? 0 then status else configuration_status in
      let '(status, rest) := Attach_loop (i + 1) rest status in
      (status, touchpad :: rest)
  end.

Definition Attach (self : VirtualTouchpadEvdev) : Z * VirtualTouchpadEvdev :=
  Attach_loop 0 self OK.

Definition Detach (self : VirtualTouchpadEvdev) : Z * VirtualTouchpadEvdev :=
  (OK, Reset self).

(** The [switch] of [Touch] on the contact history. *)
Definition Touch_emit (touches device_x device_y : Z) (touchpad : Touchpad)
    (inj : EvdevInjector) : EvdevInjector :=
  match touches with
  | 0 (* Hover continues. *) =>
      if negb (device_x =? last_device_x touchpad)
         || negb (device_y =? last_device_y touchpad)
      then inj ~> SendMultiTouchXY 0 0 device_x device_y ~> SendSynReport
      else inj
  | 1 (* Touch begins. *) =>
      inj ~> SendMultiTouchXY 0 0 device_x device_y
          ~> SendKey BTN_TOUCH KEY_PRESS
          ~> SendSynReport
  | 2 (* Touch ends. *) =>
      inj ~> SendKey BTN_TOUCH KEY_RELEASE
          ~> SendMultiTouchLift 0
          ~> SendSynReport
  | 3 (* Touch continues. *) =>
      if negb (device_x =? last_device_x touchpad)
         || negb (device_y =? last_device_y touchpad)
      then inj ~> SendMultiTouchXY 0 0 device_x device_y ~> SendSynReport
      else inj
  | _ => inj
  end.

Definition Touch (touchpad_id : Z) (x y pressure : float)
    (self : VirtualTouchpadEvdev) : option (Z * VirtualTouchpadEvdev) :=
  if (touchpad_id <? 0) || (touchpad_id >=? kTouchpads self) then
    Some (EINVAL, self)
  else if flt x f_0_0 || fge x f_1_0 || flt y f_0_0 || fge y f_1_0 then
    Some (EINVAL, self)
  else
    device_x ← device_coordinate x kWidth;
    device_y ← device_coordinate y kHeight;
    touchpad ← self !! Z.to_nat touchpad_id;
    let touchpad :=
      set_touches
        (Z.lor (Z.shiftl (Z.land (touches touchpad) 1) 1)
               (Z.b2z (fgt pressure (float_of_int 0))))
        touchpad in
    match injector touchpad with
    | None =>
        Some (ERROR_SEQUENCING, <[Z.to_nat touchpad_id := touchpad]> self)
    | Some inj =>
        let inj := inj ~> ResetError in
        let inj := Touch_emit (touches touchpad) device_x device_y touchpad inj in
        let touchpad :=
          set_last_device device_x device_y
            (set_injector (owned_injector touchpad) (Some inj) touchpad) in
        Some (GetError inj, <[Z.to_nat touchpad_id := touchpad]> self)
    end.

Definition ButtonState (touchpad_id buttons : Z)
    (self : VirtualTouchpadEvdev) : option (Z * VirtualTouchpadEvdev) :=
  if (touchpad_id <? 0) || (touchpad_id >=? kTouchpads self) then
    Some (EINVAL, self)
  else
    touchpad ← self !! Z.to_nat touchpad_id;
    let changes := Z.lxor (last_motion_event_buttons touchpad) buttons in
    if changes =? 0 then Some (0, self)
    else if negb (Z.land buttons (Z.lnot AMOTION_EVENT_BUTTON_BACK) =? 0) then
      Some (ENOTSUP, self)
    else
      match injector touchpad with
      | None => Some (ERROR_SEQUENCING, self)
      | Some inj =>
          let inj := inj ~> ResetError in
          let inj :=
            if negb (Z.land changes AMOTION_EVENT_BUTTON_BACK =? 0) then
              inj ~> SendKey BTN_BACK
                       (if negb (Z.land buttons AMOTION_EVENT_BUTTON_BACK =? 0)
                        then KEY_PRESS else KEY_RELEASE)
                  ~> SendSynReport
            else inj in
          let touchpad :=
            set_last_motion_event_buttons buttons
              (set_injector (owned_injector touchpad) (Some inj) touchpad) in
          Some (GetError inj, <[Z.to_nat touchpad_id := touchpad]> self)
      end.

Definition Scroll (touchpad_id : Z) (x y : float)
    (self : VirtualTouchpadEvdev) : option (Z * VirtualTouchpadEvdev) :=
  if (touchpad_id <? 0) || (touchpad_id >=? kTouchpads self) then
    Some (EINVAL, self)
  else if flt x f_m1_0 || fgt x f_1_0 || flt y f_m1_0 || fgt y f_1_0 then
    Some (EINVAL, self)
  else
    touchpad ← self !! Z.to_nat touchpad_id;
    match injector touchpad with
    | None => Some (ERROR_SEQUENCING, self)
    | Some inj =>
        let inj := inj ~> ResetError in
        scaled_x ← scale_relative_scroll x;
        scaled_y ← scale_relative_scroll y;
        let inj := if negb (scaled_x =? 0) then inj ~> SendRel REL_HWHEEL scaled_x else inj in
        let inj := if negb (scaled_y =? 0) then inj ~> SendRel REL_WHEEL scaled_y else inj in
        let inj :=
          if negb (scaled_x =? 0) || negb (scaled_y =? 0)
          then inj ~> SendSynReport else inj in
        let touchpad := set_injector (owned_injector touchpad) (Some inj) touchpad in
        Some (GetError inj, <[Z.to_nat touchpad_id := touchpad]> self)
    end.

(** The loop of [dumpInternal] from index [i] on; the [return] inside the
    loop ends it at the first touchpad without an injector. *)
Fixpoint dumpInternal_loop (i : Z) (touchpads : list Touchpad) (result : string)
  : string :=
  match touchpads with
  | [] => result
  | touchpad :: rest =>
      let result := result +:+ "[virtual touchpad " +:+ format_d i +:+ "]" +:+ LF in
      match injector touchpad with
      | None => result +:+ "injector = none" +:+ LF
      | Some inj =>
          let result :=
            result +:+ "injector = "
                   +:+ (if owned_injector touchpad then "normal" else "test")
                   +:+ LF in
          let result := result +:+ "touches = " +:+ format_d (touches touchpad) +:+ LF in
          let result :=
            result +:+ "last_position = (" +:+ format_d (last_device_x touchpad)
                   +:+ ", " +:+ format_d (last_device_y touchpad) +:+ ")" +:+ LF in
          let result :=
            result +:+ "last_buttons = 0x"
                   +:+ format_X32 (last_motion_event_buttons touchpad) +:+ LF in
          let result := injector_dumpInternal inj result in
          let result := result +:+ LF in
          dumpInternal_loop (i + 1) rest result
      end
  end.

Definition dumpInternal (self : VirtualTouchpadEvdev) (result : string) : string :=
  dumpInternal_loop 0 self result.

(** ** Runs of the manager *)

Inductive operation : Type :=
  | OpReset
  | OpAttach
  | OpDetach
  | OpTouch (touchpad_id : Z) (x y pressure : float)
  | OpButtonState (touchpad_id buttons : Z)
  | OpScroll (touchpad_id : Z) (x y : float).

Definition perform (op : operation) (self : VirtualTouchpadEvdev)
  : option VirtualTouchpadEvdev :=
  match op with
  | OpReset => Some (Reset self)
  | OpAttach => Some (snd (Attach self))
  | OpDetach => Some (snd (Detach self))
  | OpTouch i x y p => snd <$> Touch i x y p self
  | OpButtonState i b => snd <$> ButtonState i b self
  | OpScroll i x y => snd <$> Scroll i x y self
  end.

(** A sequence of operations, first to last. *)
Fixpoint perform_all (ops : list operation) (self : VirtualTouchpadEvdev)
  : option VirtualTouchpadEvdev :=
  match ops with
  | [] => Some self
  | op :: ops => self ← perform op self; perform_all ops self
  end.

(** The states the manager can be in: those a created manager gets to by
    some sequence of the operations of this translation unit. *)
Inductive reachable (n : nat) : VirtualTouchpadEvdev -> Prop :=
  | reachable_Create : reachable n (Create n)
  | reachable_perform op self self' :
      reachable n self -> perform op self = Some self' -> reachable n self'.

End Operations.

(** The range preconditions of the event operations, on binary32 values:
    [0 <= v < 1] for a normalized coordinate, [-1 <= v <= 1] for a scroll
    delta. *)
Definition normalized (v : float) : Prop :=
  is_float v /\ fle f_0_0 v = true /\ flt v f_1_0 = true.

Definition scroll_delta (v : float) : Prop :=
  is_float v /\ fle f_m1_0 v = true /\ fle v f_1_0 = true.

(** The device-space coordinate the specification gives for a normalized
    one, and the quantized scroll delta it gives for a scroll delta. *)
Definition device_space (v : float) (extent : Z) : Z :=
  Qfloor (SF2Q v * inject_Z extent).

Definition quantized (v : float) : Z :=
  Qsign (SF2Q v) * Qceiling (Qabs (4 * SF2Q v)).

(** The stored button masks hold recognized bits only. *)
Definition buttons_recognized `{Declarations} (self : VirtualTouchpadEvdev) : Prop :=
  Forall (fun touchpad =>
            Z.land (last_motion_event_buttons touchpad)
                   (Z.lnot AMOTION_EVENT_BUTTON_BACK) = 0) self.

(** The declarations as the platform headers give them
    ([ERROR_SEQUENCING = -5], [KEY_PRESS = 1], [KEY_RELEASE = 0],
    [AMOTION_EVENT_BUTTON_BACK = 1 << 3]), with an injector that reports no
    error and adds nothing to a dump; used to run the operations on concrete
    inputs. *)
Definition platform : Declarations :=
  {| ERROR_SEQUENCING := -5;
     KEY_PRESS := 1;
     KEY_RELEASE := 0;
     AMOTION_EVENT_BUTTON_BACK := Z.shiftl 1 3;
     GetError := fun _ => 0;
     injector_dumpInternal := fun _ result => result |}.

(** A manager of two touchpads, as created and after [Attach]. *)
Definition detached : list Touchpad := Create 2.

Definition attached : list Touchpad := snd (@Attach platform detached).

Definition detached_touchpad : Touchpad :=
  {| owned_injector := false; injector := None;
     last_device_x := INT32_MIN; last_device_y := INT32_MIN;
     touches := 0; last_motion_event_buttons := 0 |}.

Definition attached_touchpad (i : Z) : Touchpad :=
  {| owned_injector := true;
     injector := Some (Attach_configure i new_EvdevInjector);
     last_device_x := INT32_MIN; last_device_y := INT32_MIN;
     touches := 0; last_motion_event_buttons := 0 |}.

(** Touchpad 0 of the attached manager after a press at (0.5, 0.25) and
    a press of the back button. *)
Definition used : list Touchpad :=
  [ {| owned_injector := true;
       injector :=
         Some (Attach_configure 0 new_EvdevInjector
                 ~> ResetError
                 ~> SendMultiTouchXY 0 0 32768 16384
                 ~> SendKey BTN_TOUCH 1
                 ~> SendSynReport
                 ~> ResetError
                 ~> SendKey BTN_BACK 1
                 ~> SendSynReport);
       last_device_x := 32768; last_device_y := 16384;
       touches := 1; last_motion_event_buttons := 8 |};
    attached_touchpad 1 ].

(** Some binary32 values: 0.5, 0.25 and 0.1f. *)
Definition f_0_5 : float := S754_finite false 8388608 (-24).
Definition f_0_25 : float := S754_finite false 8388608 (-25).
Definition f_0_1 : float := S754_finite false 13421773 (-27).

(** ** Further notions used to state how the operations behave *)

(** Zeros and finite non-zero values: the floats that denote a number. *)
Definition is_finite (v : float) : bool :=
  match v with
  | S754_zero _ | S754_finite _ _ _ => true
  | _ => false
  end.

(** An infinity, or a number outside [[0, 1)]. *)
Definition outside_unit_interval (v : float) : Prop :=
  (exists s, v = S754_infinity s) \/
  (is_finite v = true /\ (SF2Q v < 0 \/ 1 <= SF2Q v)%Q).

(** An infinity, or a number outside [[-1, 1]]. *)
Definition outside_scroll_range (v : float) : Prop :=
  (exists s, v = S754_infinity s) \/
  (is_finite v = true /\ (SF2Q v < - (1) \/ 1 < SF2Q v)%Q).

(** The touchpad an event operation addresses. *)
Definition operation_target (op : operation) : option Z :=
  match op with
  | OpTouch i _ _ _ | OpButtonState i _ | OpScroll i _ _ => Some i
  | _ => None
  end.

(** The coordinates and deltas of an operation are binary32 values other
    than NaN (the pressure may be any value). *)
Definition operation_numeric (op : operation) : Prop :=
  match op with
  | OpTouch _ x y _ | OpScroll _ x y =>
      is_float x /\ is_float y /\ x <> S754_nan /\ y <> S754_nan
  | _ => True
  end.

(** The stored last position is unset, or a position of the device. *)
Definition position_recorded (touchpad : Touchpad) : Prop :=
  (last_device_x touchpad = INT32_MIN /\ last_device_y touchpad = INT32_MIN) \/
  (0 <= last_device_x touchpad <= kWidth - 1 /\
   0 <= last_device_y touchpad <= kHeight - 1).

(** The part of a touchpad that [Touch] reads and writes besides the
    injector, and the part [ButtonState] does. *)
Definition touch_state (touchpad : Touchpad) : Z * Z * Z :=
  (last_device_x touchpad, last_device_y touchpad, touches touchpad).

(** Whether a touchpad has an injector, and the calls its injector has
    received so far (none without an injector). *)
Definition has_injector (touchpad : Touchpad) : bool :=
  match injector touchpad with
  | Some _ => true
  | None => false
  end.

Definition received_calls (touchpad : Touchpad) : list call :=
  match injector touchpad with
  | Some inj => received inj
  | None => []
  end.

(** What [Touch] reads of a touchpad: last position, contact history and
    whether there is an injector. *)
Definition touch_view (touchpad : Touchpad) : Z * Z * Z * bool :=
  (touch_state touchpad, has_injector touchpad).

(** What [ButtonState] reads of a touchpad: the button mask and whether
    there is an injector. *)
Definition button_view (touchpad : Touchpad) : Z * bool :=
  (last_motion_event_buttons touchpad, has_injector touchpad).

(** Every touchpad of [after] has an injector exactly if it has one in
    [before], and that injector has received the calls it had received in
    [before], followed by further ones: the injector pointers are the same. *)
Definition injectors_kept (before after : list Touchpad) : Prop :=
  Forall2 (fun touchpad touchpad' =>
             has_injector touchpad' = has_injector touchpad /\
             received_calls touchpad `prefix_of` received_calls touchpad')
          before after.

(** The calls made on the injector of each touchpad between two states of
    the manager. *)
Definition emitted (before after : list Touchpad) : list (list call) :=
  zip_with (fun touchpad touchpad' =>
              drop (length (received_calls touchpad)) (received_calls touchpad'))
           before after.

(** The effect of a [Touch] as far as the touch handling goes: the calls it
    makes on each injector and what a next [Touch] will read.  [None] if the
    call has no defined result. *)
Definition Touch_effect `{Declarations} (touchpad_id : Z) (x y pressure : float)
    (self : list Touchpad) : option (list (list call) * list (Z * Z * Z * bool)) :=
  result ← Touch touchpad_id x y pressure self;
  Some (emitted self (snd result), touch_view <$> snd result).

(** The effect of a [ButtonState] as far as the button tracking goes. *)
Definition ButtonState_effect `{Declarations} (touchpad_id buttons : Z)
    (self : list Touchpad) : option (list (list call) * list (Z * bool)) :=
  result ← ButtonState touchpad_id buttons self;
  Some (emitted self (snd result), button_view <$> snd result).

(** The configuration error of touchpad [i] during [Attach]: what its
    injector reports after the configuration calls. *)
Definition configuration_error `{Declarations} (i : Z) (touchpad : Touchpad) : Z :=
  GetError (Attach_configure i (default new_EvdevInjector (injector touchpad))).

(** Declarations whose injector reports error 16 once it has been
    configured under the name of touchpad 0, and no error otherwise. *)
Definition first_device_busy : Declarations :=
  {| ERROR_SEQUENCING := -5;
     KEY_PRESS := 1;
     KEY_RELEASE := 0;
     AMOTION_EVENT_BUTTON_BACK := Z.shiftl 1 3;
     GetError := fun inj =>
       match received inj with
       | ConfigureBegin device_name _ _ _ _ :: _ =>
           if String.eqb device_name "vr-virtual-touchpad-0" then 16 else 0
       | _ => 0
       end;
     injector_dumpInternal := fun _ result => result |}.

(** The calls of one [Scroll] on an attached touchpad, for the scaled
    deltas [scaled_x] and [scaled_y]. *)
Definition Scroll_calls (scaled_x scaled_y : Z) : list call :=
  ResetError ::
  (if scaled_x =? 0 then [] else [SendRel REL_HWHEEL scaled_x]) ++
  (if scaled_y =? 0 then [] else [SendRel REL_WHEEL scaled_y]) ++
  (if (scaled_x =? 0) && (scaled_y =? 0) then [] else [SendSynReport]).

(** Two binary32 values out of range for a coordinate: -0.5 and 2. *)
Definition f_m0_5 : float := S754_finite true 8388608 (-24).
Definition f_2_0 : float := S754_finite false 8388608 (-22).

(** ** Exactness of the floating-point operations used *)

Section FloatFacts.

(** The literals and converted constants of the source, as binary32 values. *)
Lemma literals_denote :
  is_float f_0_0 /\ is_float f_1_0 /\ is_float f_4_0 /\ is_float f_m1_0 /\
  f_1_0 = float_of_int 1 /\ f_4_0 = float_of_int 4 /\
  f_m1_0 = float_of_int (-1) /\ f_0_0 = float_of_int 0 /\
  SF2Q f_1_0 == 1 /\ SF2Q f_4_0 == 4 /\ SF2Q f_m1_0 == - (1) /\
  SF2Q (float_of_int kWidth) == inject_Z kWidth /\
  SF2Q (float_of_int kHeight) == inject_Z kHeight.
Proof. repeat split. Qed.

Lemma digits2_pos_bounds (m : positive) :
  2 ^ (Z.pos (digits2_pos m) - 1) <= Z.pos m < 2 ^ Z.pos (digits2_pos m).
Proof.
  induction m as [m IH|m IH|]; cbn [digits2_pos].
  - rewrite Pos2Z.inj_succ. change (Z.pos m~1) with (2 * Z.pos m + 1).
    replace (Z.succ (Z.pos (digits2_pos m)) - 1) with (Z.succ (Z.pos (digits2_pos m) - 1)) by lia.
    rewrite !Z.pow_succ_r by lia.
    destruct IH as [Hlo Hhi]. revert Hlo Hhi.
    generalize (2 ^ (Z.pos (digits2_pos m) - 1)) (2 ^ Z.pos (digits2_pos m)). lia.
  - rewrite Pos2Z.inj_succ. change (Z.pos m~0) with (2 * Z.pos m).
    replace (Z.succ (Z.pos (digits2_pos m)) - 1) with (Z.succ (Z.pos (digits2_pos m) - 1)) by lia.
    rewrite !Z.pow_succ_r by lia.
    destruct IH as [Hlo Hhi]. revert Hlo Hhi.
    generalize (2 ^ (Z.pos (digits2_pos m) - 1)) (2 ^ Z.pos (digits2_pos m)). lia.
  - simpl. lia.
Qed.

Lemma digits2_pos_shiftl_nat (m : positive) (n : nat) :
  Z.pos (digits2_pos (Pos.shiftl_nat m n)) = Z.pos (digits2_pos m) + Z.of_nat n.
Proof.
  induction n as [|n IH].
  - simpl. lia.
  - change (Pos.shiftl_nat m (S n)) with (xO (Pos.shiftl_nat m n)).
    cbn [digits2_pos]. rewrite Pos2Z.inj_succ, IH. lia.
Qed.

Lemma Zpos_shiftl_nat (m : positive) (n : nat) :
  Z.pos (Pos.shiftl_nat m n) = Z.shiftl (Z.pos m) (Z.of_nat n).
Proof.
  induction n as [|n IH].
  - reflexivity.
  - change (Pos.shiftl_nat m (S n)) with (xO (Pos.shiftl_nat m n)).
    change (Z.pos (Pos.shiftl_nat m n)~0) with (2 * Z.pos (Pos.shiftl_nat m n)).
    rewrite IH, Nat2Z.inj_succ.
    rewrite !Z.shiftl_mul_pow2 by lia. rewrite Z.pow_succ_r by lia. lia.
Qed.

Lemma Zneg_shiftl_nat (m : positive) (n : nat) :
  Z.neg (Pos.shiftl_nat m n) = Z.shiftl (Z.neg m) (Z.of_nat n).
Proof.
  rewrite <- !Pos2Z.opp_pos, Zpos_shiftl_nat.
  rewrite !Z.shiftl_mul_pow2 by lia. lia.
Qed.

Lemma iter_pos_nat {A} (f : A -> A) (p : positive) (x : A) :
  SpecFloat.iter_pos f p x = Nat.iter (Pos.to_nat p) f x.
Proof.
  revert x. induction p as [p IH|p IH|]; intros x; cbn [SpecFloat.iter_pos].
  - rewrite !IH, Pos2Nat.inj_xI.
    replace (S (2 * Pos.to_nat p))%nat with (Pos.to_nat p + (Pos.to_nat p + 1))%nat by lia.
    rewrite !Nat.iter_add. reflexivity.
  - rewrite !IH, Pos2Nat.inj_xO.
    replace (2 * Pos.to_nat p)%nat with (Pos.to_nat p + Pos.to_nat p)%nat by lia.
    rewrite Nat.iter_add. reflexivity.
  - reflexivity.
Qed.

(** Shifting right by [n] a mantissa that ends in at least [n] zero bits
    loses nothing. *)
Lemma iter_shr_1_exact (m : positive) (n k : nat) :
  Nat.iter n shr_1 (Build_shr_record (Z.pos (Pos.shiftl_nat m (n + k))) false false)
  = Build_shr_record (Z.pos (Pos.shiftl_nat m k)) false false.
Proof.
  induction n as [|n IH].
  - reflexivity.
  - rewrite Nat.iter_succ_r. exact IH.
Qed.

Lemma shr_exact (m : positive) (n k : nat) (e : Z) :
  shr (Build_shr_record (Z.pos (Pos.shiftl_nat m (n + k))) false false) e (Z.of_nat n)
  = (Build_shr_record (Z.pos (Pos.shiftl_nat m k)) false false, e + Z.of_nat n).
Proof.
  destruct n as [|n].
  - simpl. f_equal. lia.
  - unfold shr. change (Z.of_nat (S n)) with (Z.pos (Pos.of_succ_nat n)). cbv beta iota.
    rewrite iter_pos_nat, SuccNat2Pos.id_succ, iter_shr_1_exact. reflexivity.
Qed.

(** Rounding a product whose low [n] bits are zero, where [n] is exactly the
    shift the format asks for, returns the product itself. *)
Lemma binary_round_aux_exact (s : bool) (m : positive) (n k : nat) (e : Z) :
  fexp prec emax (Z.pos (digits2_pos m) + Z.of_nat (n + k) + e) - e = Z.of_nat n ->
  e + Z.of_nat n <= emax - prec ->
  binary_round_aux prec emax s (Z.pos (Pos.shiftl_nat m (n + k))) e loc_Exact
  = S754_finite s (Pos.shiftl_nat m k) (e + Z.of_nat n).
Proof.
  intros Hshift Hmax.
  unfold binary_round_aux, shr_fexp.
  cbn [Zdigits2 shr_record_of_loc].
  rewrite digits2_pos_shiftl_nat, Hshift, shr_exact.
  cbn [shr_m loc_of_shr_record round_nearest_even Zdigits2 shr_record_of_loc].
  rewrite digits2_pos_shiftl_nat.
  replace (fexp prec emax (Z.pos (digits2_pos m) + Z.of_nat k + (e + Z.of_nat n)) - (e + Z.of_nat n))
    with 0.
  2:{ rewrite Nat2Z.inj_add in Hshift.
      replace (Z.pos (digits2_pos m) + Z.of_nat k + (e + Z.of_nat n))
        with (Z.pos (digits2_pos m) + (Z.of_nat n + Z.of_nat k) + e) by lia.
      lia. }
  cbn [shr shr_m].
  destruct (Z.leb_spec (e + Z.of_nat n) (emax - prec)) as [_|Hgt]; [reflexivity | lia].
Qed.

Lemma bounded_inv (m : positive) (e : Z) :
  bounded prec emax m e = true ->
  1 <= Z.pos (digits2_pos m) <= 24 /\ -149 <= e <= 104 /\
  e = Z.max (Z.pos (digits2_pos m) + e - 24) (-149).
Proof.
  unfold bounded, canonical_mantissa, fexp, emin, prec, emax.
  rewrite andb_true_iff, Z.eqb_eq, Z.leb_le. lia.
Qed.

(** The product of a binary32 mantissa with [2^23], at an exponent [E] that
    keeps the result finite and needs a shift of at most 23 bits, is
    rounded without error: the result is the same mantissa shifted left by
    [k], at exponent [E + n], with [n + k = 23]. *)
Lemma round_shifted_mantissa (s : bool) (m : positive) (e E : Z) :
  bounded prec emax m e = true ->
  -172 <= E ->
  Z.pos (digits2_pos m) + E <= 105 ->
  exists n k : nat,
    (n + k = 23)%nat /\
    E + Z.of_nat n = Z.max (Z.pos (digits2_pos m) - 1 + E) (-149) /\
    binary_round_aux prec emax s (Z.pos (Pos.shiftl_nat m 23)) E loc_Exact
    = S754_finite s (Pos.shiftl_nat m k) (E + Z.of_nat n).
Proof.
  intros Hb HE Hd. apply bounded_inv in Hb. destruct Hb as (Hdig & He & _).
  set (d := Z.pos (digits2_pos m)) in *.
  exists (Z.to_nat (Z.max (d - 1) (-149 - E))), (Z.to_nat (23 - Z.max (d - 1) (-149 - E))).
  assert (Hn : Z.of_nat (Z.to_nat (Z.max (d - 1) (-149 - E))) = Z.max (d - 1) (-149 - E)) by lia.
  split; [lia | split; [lia |]].
  replace 23%nat
    with (Z.to_nat (Z.max (d - 1) (-149 - E)) + Z.to_nat (23 - Z.max (d - 1) (-149 - E)))%nat
    at 1 by lia.
  apply binary_round_aux_exact.
  - fold d. unfold fexp, emin, prec, emax. lia.
  - unfold prec, emax. lia.
Qed.

Lemma shiftl_pos_shiftl_nat (m : positive) (k : nat) (j : Z) :
  Z.shiftl (Z.pos (Pos.shiftl_nat m k)) j = Z.shiftl (Z.pos m) (Z.of_nat k + j).
Proof. rewrite Zpos_shiftl_nat. apply Z.shiftl_shiftl. lia. Qed.

Lemma shiftl_neg_shiftl_nat (m : positive) (k : nat) (j : Z) :
  Z.shiftl (Z.neg (Pos.shiftl_nat m k)) j = Z.shiftl (Z.neg m) (Z.of_nat k + j).
Proof. rewrite Zneg_shiftl_nat. apply Z.shiftl_shiftl. lia. Qed.

(** *** Floats as rational numbers *)

Lemma Qfloor_scaled (z k : Z) : Qfloor (inject_Z z * 2 ^ k) = Z.shiftl z k.
Proof.
  destruct (Z.le_gt_cases 0 k) as [Hk|Hk].
  - rewrite Z.shiftl_mul_pow2 by lia.
    rewrite <- (Qfloor_Z (z * 2 ^ k)). apply Qfloor_comp.
    rewrite inject_Z_mult, Zpower_Qpower by lia. reflexivity.
  - replace k with (- (- k)) by lia.
    rewrite Z.shiftl_opp_r, Z.shiftr_div_pow2 by lia.
    rewrite Zdiv_Qdiv. apply Qfloor_comp.
    rewrite Qpower_opp, Zpower_Qpower by lia. reflexivity.
Qed.

Lemma Qceiling_scaled (z k : Z) :
  Qceiling (inject_Z z * 2 ^ k) = - Z.shiftl (- z) k.
Proof.
  unfold Qceiling. f_equal. rewrite <- Qfloor_scaled. apply Qfloor_comp.
  rewrite inject_Z_opp. ring.
Qed.

Lemma Qpow2_add (a b : Z) : (2 ^ (a + b) == 2 ^ a * 2 ^ b)%Q.
Proof. apply Qpower_plus. discriminate. Qed.

(** *** Comparisons with the literals *)

Lemma SFcompare_finite_pos (m1 m2 : positive) (e1 e2 : Z) :
  SFcompare (S754_finite false m1 e1) (S754_finite false m2 e2)
  = Some match e1 ?= e2 with
         | Lt => Lt
         | Gt => Gt
         | Eq => Z.pos m1 ?= Z.pos m2
         end.
Proof.
  unfold SFcompare. rewrite Pos.compare_cont_spec.
  change (Z.pos m1 ?= Z.pos m2) with (m1 ?= m2)%positive.
  destruct (e1 ?= e2), (m1 ?= m2)%positive; reflexivity.
Qed.

Lemma SFcompare_finite_neg (m1 m2 : positive) (e1 e2 : Z) :
  SFcompare (S754_finite true m1 e1) (S754_finite true m2 e2)
  = Some match e1 ?= e2 with
         | Lt => Gt
         | Gt => Lt
         | Eq => CompOpp (Z.pos m1 ?= Z.pos m2)
         end.
Proof.
  unfold SFcompare. rewrite Pos.compare_cont_spec.
  change (Z.pos m1 ?= Z.pos m2) with (m1 ?= m2)%positive.
  destruct (e1 ?= e2), (m1 ?= m2)%positive; reflexivity.
Qed.

Lemma flt_1_inv (m : positive) (e : Z) :
  bounded prec emax m e = true ->
  flt (S754_finite false m e) f_1_0 = true -> e <= -24.
Proof.
  intros Hb Hlt. pose proof (digits2_pos_bounds m) as Hd.
  apply bounded_inv in Hb. destruct Hb as (Hdig & He & Hcan).
  unfold flt, SFltb, f_1_0 in Hlt. rewrite SFcompare_finite_pos in Hlt.
  destruct (Z.compare_spec e (-23)) as [Heq|Hl|Hg]; try discriminate; [|lia].
  destruct (Z.compare_spec (Z.pos m) (Z.pos 8388608)) as [?|Hm|?]; try discriminate.
  assert (Z.pos (digits2_pos m) = 24) as Hd24 by lia.
  rewrite Hd24 in Hd. change (2 ^ (24 - 1)) with 8388608 in Hd. lia.
Qed.

Lemma pos_lt_pow2_24 (m : positive) :
  Z.pos (digits2_pos m) <= 24 -> Z.pos m < 2 ^ 24.
Proof.
  intros Hd. pose proof (digits2_pos_bounds m) as [_ Hm].
  eapply Z.lt_le_trans; [exact Hm|]. apply Z.pow_le_mono_r; lia.
Qed.

(** Scaling a binary32 value of [[0, 1)] by [2^16] and truncating gives the
    floor of the exact product, which lies in [[0, 2^16 - 1]]. *)
Lemma device_coordinate_exact (v : float) :
  is_float v -> fle f_0_0 v = true -> flt v f_1_0 = true ->
  device_coordinate v 0x10000 = Some (Qfloor (SF2Q v * inject_Z 0x10000)) /\
  0 <= Qfloor (SF2Q v * inject_Z 0x10000) <= 0x10000 - 1.
Proof.
  intros Hv H0 H1. destruct v as [s| s | |s m e]; try discriminate.
  - split; [reflexivity | vm_compute; split; discriminate].
  - destruct s; discriminate.
  - destruct s; [discriminate|]. clear H0.
    pose proof (flt_1_inv m e Hv H1) as He.
    pose proof (bounded_inv m e Hv) as (Hdig & Hrange & _).
    pose proof (pos_lt_pow2_24 m ltac:(lia)) as Hm.
    assert (Hfloor : Qfloor (SF2Q (S754_finite false m e) * inject_Z 0x10000)
                     = Z.shiftl (Z.pos m) (e + 16)).
    { rewrite <- Qfloor_scaled. apply Qfloor_comp.
      cbn [SF2Q cond_Zopp]. rewrite Qpow2_add.
      change (inject_Z 65536) with (2 ^ 16)%Q. symmetry. apply Qmult_assoc. }
    assert (Hbound : 0 <= Z.shiftl (Z.pos m) (e + 16) <= 0x10000 - 1).
    { replace (e + 16) with (- (- (e + 16))) by lia.
      rewrite Z.shiftl_opp_r, Z.shiftr_div_pow2 by lia.
      assert (0 < 2 ^ (- (e + 16))) by (apply Z.pow_pos_nonneg; lia).
      split; [apply Z.div_pos; lia|].
      apply Z.lt_succ_r. apply Z.div_lt_upper_bound; [lia|].
      eapply Z.lt_le_trans; [exact Hm|].
      change (Z.succ (0x10000 - 1)) with (2 ^ 16). rewrite <- Z.pow_add_r by lia.
      apply Z.pow_le_mono_r; lia. }
    rewrite Hfloor. split; [|exact Hbound].
    unfold device_coordinate, fmul.
    change (float_of_int 0x10000) with (S754_finite false 8388608 (-7)).
    cbn [SFmul xorb]. rewrite Pos.mul_comm.
    change (8388608 * m)%positive with (Pos.shiftl_nat m 23).
    destruct (round_shifted_mantissa false m e (e + -7) Hv) as (n & k & Hnk & _ & ->);
      [lia | lia |].
    cbn [float_to_int32 cond_Zopp]. rewrite shiftl_pos_shiftl_nat.
    replace (Z.of_nat k + (e + -7 + Z.of_nat n)) with (e + 16) by lia.
    unfold INT32_MIN, INT32_MAX.
    destruct (Z.leb_spec (- 2 ^ 31) (Z.shiftl (Z.pos m) (e + 16))); [|lia].
    destruct (Z.leb_spec (Z.shiftl (Z.pos m) (e + 16)) (2 ^ 31 - 1)); [reflexivity|lia].
Qed.

Lemma fabs_le_1_inv (s : bool) (m : positive) (e : Z) :
  bounded prec emax m e = true ->
  fle f_m1_0 (S754_finite s m e) = true ->
  fle (S754_finite s m e) f_1_0 = true ->
  e <= -23 /\ Z.pos m <= 2 ^ (- e).
Proof.
  intros Hb Hlo Hhi.
  pose proof (bounded_inv m e Hb) as (Hdig & Hrange & _).
  pose proof (pos_lt_pow2_24 m ltac:(lia)) as Hm.
  assert (Hsmall : e <= -24 -> Z.pos m <= 2 ^ (- e)).
  { intros He. apply Z.lt_le_incl. eapply Z.lt_le_trans; [exact Hm|].
    apply Z.pow_le_mono_r; lia. }
  unfold fle, SFleb, f_m1_0, f_1_0 in Hlo, Hhi.
  destruct s.
  - clear Hhi. rewrite SFcompare_finite_neg in Hlo.
    destruct (Z.compare_spec (-23) e) as [Heq|Hl|Hg]; try discriminate.
    + subst e. split; [lia|]. change (2 ^ (- -23)) with 8388608.
      destruct (Z.compare_spec (Z.pos 8388608) (Z.pos m)) as [Heq|Hlt|Hgt];
        [lia | discriminate | lia].
    + split; [lia | apply Hsmall; lia].
  - clear Hlo. rewrite SFcompare_finite_pos in Hhi.
    destruct (Z.compare_spec e (-23)) as [Heq|Hl|Hg]; try discriminate.
    + subst e. split; [lia|]. change (2 ^ (- -23)) with 8388608.
      destruct (Z.compare_spec (Z.pos m) (Z.pos 8388608)) as [Heq|Hlt|Hgt];
        [lia | lia | discriminate].
    + split; [lia | apply Hsmall; lia].
Qed.

Lemma Qsign_scaled (z k : Z) : Qsign (inject_Z z * 2 ^ k) = Z.sgn z.
Proof.
  unfold Qsign. cbn [Qmult Qnum inject_Z].
  assert (0 < Qnum (2 ^ k)).
  { pose proof (Qpower_0_lt 2 k eq_refl) as Hpos.
    unfold Qlt in Hpos. cbn [Qnum Qden] in Hpos. lia. }
  rewrite Z.sgn_mul, (Z.sgn_pos (Qnum (2 ^ k))) by assumption. lia.
Qed.

(** The ceiling of a positive quantity of at most 4 is one of 1, 2, 3, 4. *)
Lemma scroll_magnitude_bounds (m : positive) (e : Z) :
  e <= -23 -> Z.pos m <= 2 ^ (- e) ->
  1 <= - Z.shiftl (Z.neg m) (e + 2) <= 4.
Proof.
  intros He Hm.
  replace (e + 2) with (- (- (e + 2))) by lia.
  rewrite Z.shiftl_opp_r, Z.shiftr_div_pow2 by lia.
  assert (Hpow : 0 < 2 ^ (- (e + 2))) by (apply Z.pow_pos_nonneg; lia).
  assert (Hsplit : 2 ^ (- e) = 2 ^ (- (e + 2)) * 4).
  { replace (- e) with (- (e + 2) + 2) by lia. rewrite Z.pow_add_r by lia. reflexivity. }
  assert (Z.neg m / 2 ^ (- (e + 2)) < 0) by (apply Z.div_lt_upper_bound; lia).
  assert (-4 <= Z.neg m / 2 ^ (- (e + 2))) by (apply Z.div_le_lower_bound; lia).
  lia.
Qed.

(** [scale_relative_scroll] on a binary32 value of [[-1, 1]]: the sign of
    the input times the ceiling of four times its magnitude. *)
Lemma scale_relative_scroll_exact (x : float) :
  is_float x -> fle f_m1_0 x = true -> fle x f_1_0 = true ->
  scale_relative_scroll x
  = Some (Qsign (SF2Q x) * Qceiling (Qabs (4 * SF2Q x))).
Proof.
  intros Hx Hlo Hhi. destruct x as [s| s | |s m e]; try discriminate.
  - reflexivity.
  - destruct s; discriminate.
  - pose proof (fabs_le_1_inv s m e Hx Hlo Hhi) as (He & Hm).
    pose proof (bounded_inv m e Hx) as (Hdig & Hrange & _).
    pose proof (scroll_magnitude_bounds m e He Hm) as Hc.
    assert (Hceil : Qceiling (Qabs (4 * SF2Q (S754_finite s m e)))
                    = - Z.shiftl (Z.neg m) (e + 2)).
    { change (Z.neg m) with (- Z.pos m). rewrite <- Qceiling_scaled.
      apply Qceiling_comp. cbn [SF2Q].
      rewrite Qpow2_add, !Qabs_Qmult. change (2 ^ 2)%Q with 4%Q.
      rewrite (Qabs_pos (2 ^ e)) by (apply Qlt_le_weak, Qpower_0_lt; reflexivity).
      change (Qabs 4) with 4%Q.
      assert (Qabs (inject_Z (cond_Zopp s (Z.pos m))) == inject_Z (Z.pos m)) as ->
        by (destruct s; reflexivity).
      ring. }
    rewrite Hceil. cbn [SF2Q]. rewrite Qsign_scaled.
    unfold scale_relative_scroll, fmul, f_4_0. cbn [SFmul xorb].
    change (8388608 * m)%positive with (Pos.shiftl_nat m 23).
    destruct (round_shifted_mantissa s m e (-21 + e) Hx) as (n & k & Hnk & Hexp & ->);
      [lia | lia |].
    cbn [fabs SFabs ceilf].
    destruct (Z.leb_spec 0 (-21 + e + Z.of_nat n)) as [Hge|_]; [lia|].
    cbn [cond_Zopp]. change (- Z.pos (Pos.shiftl_nat m k)) with (Z.neg (Pos.shiftl_nat m k)).
    rewrite shiftl_neg_shiftl_nat.
    replace (Z.of_nat k + (-21 + e + Z.of_nat n)) with (e + 2) by lia.
    remember (- Z.shiftl (Z.neg m) (e + 2)) as c eqn:Ec. clear Ec Hceil.
    assert (Hcases : c = 1 \/ c = 2 \/ c = 3 \/ c = 4) by lia.
    destruct Hcases as [-> | [-> | [-> | ->]]]; destruct s; reflexivity.
Qed.

End FloatFacts.

(** ** The event operations *)

Section EventOperations.

Context `{Declarations}.

Implicit Types (self : list Touchpad) (touchpad : Touchpad) (inj : EvdevInjector).

Lemma index_check_passes (i : Z) self touchpad :
  0 <= i -> self !! Z.to_nat i = Some touchpad ->
  (i <? 0) || (i >=? kTouchpads self) = false.
Proof.
  intros Hi Hlook. apply lookup_lt_Some in Hlook.
  unfold kTouchpads. rewrite Z.geb_leb.
  destruct (Z.ltb_spec i 0); [lia|].
  destruct (Z.leb_spec (Z.of_nat (length self)) i); [lia | reflexivity].
Qed.

Lemma normalized_accepted (v : float) :
  normalized v -> flt v f_0_0 || fge v f_1_0 = false.
Proof.
  intros (Hv & H0 & H1). destruct v as [s| s | |s m e]; try discriminate.
  - reflexivity.
  - destruct s; discriminate.
  - destruct s; [discriminate|].
    pose proof (flt_1_inv m e Hv H1) as He.
    unfold flt, fge, SFltb, SFleb, SFcompare, f_0_0, f_1_0. cbn [orb].
    destruct (Z.compare_spec (-23) e); [lia | lia | reflexivity].
Qed.

Lemma scroll_delta_accepted (v : float) :
  scroll_delta v -> flt v f_m1_0 || fgt v f_1_0 = false.
Proof.
  intros (Hv & Hlo & Hhi).
  destruct v as [s| s | |s m e]; try discriminate.
  - reflexivity.
  - destruct s; discriminate.
  - pose proof (fabs_le_1_inv s m e Hv Hlo Hhi) as (He & Hm).
    unfold flt, fgt, SFltb, f_m1_0, f_1_0. destruct s.
    + rewrite SFcompare_finite_neg. cbn [SFcompare].
      destruct (Z.compare_spec e (-23)) as [Heq|Hl|Hg]; [|reflexivity|lia].
      subst e. change (2 ^ (- -23)) with 8388608 in Hm.
      destruct (Z.compare_spec (Z.pos m) (Z.pos 8388608)); [reflexivity..|lia].
    + rewrite SFcompare_finite_pos. cbn [SFcompare orb].
      destruct (Z.compare_spec (-23) e) as [Heq|Hl|Hg]; [|lia|reflexivity].
      subst e. change (2 ^ (- -23)) with 8388608 in Hm.
      destruct (Z.compare_spec (Z.pos 8388608) (Z.pos m)); [reflexivity|lia|reflexivity].
Qed.

(** The new contact history: the previous sample in bit 1, the current one
    in bit 0. *)
Lemma touches_advance (old : Z) (contact : bool) :
  Z.lor (Z.shiftl (Z.land old 1) 1) (Z.b2z contact)
  = 2 * Z.b2z (Z.odd old) + Z.b2z contact.
Proof.
  change 1 with (Z.ones 1) at 1. rewrite Z.land_ones by lia.
  change (2 ^ 1) with 2. rewrite <- Z.bit0_mod, Z.bit0_odd.
  destruct (Z.odd old), contact; reflexivity.
Qed.

Lemma Touch_validated (i : Z) (x y pressure : float) self touchpad :
  0 <= i -> self !! Z.to_nat i = Some touchpad ->
  normalized x -> normalized y ->
  Touch i x y pressure self =
    let device_x := device_space x kWidth in
    let device_y := device_space y kHeight in
    let history :=
      2 * Z.b2z (Z.odd (touches touchpad))
      + Z.b2z (fgt pressure (float_of_int 0)) in
    match injector touchpad with
    | None =>
        Some (ERROR_SEQUENCING,
              <[Z.to_nat i := set_touches history touchpad]> self)
    | Some inj =>
        let inj' :=
          Touch_emit history device_x device_y touchpad (inj ~> ResetError) in
        Some (GetError inj',
              <[Z.to_nat i :=
                  {| owned_injector := owned_injector touchpad;
                     injector := Some inj';
                     last_device_x := device_x;
                     last_device_y := device_y;
                     touches := history;
                     last_motion_event_buttons :=
                       last_motion_event_buttons touchpad |}]> self)
    end.
Proof.
  intros Hi Hlook Hx Hy. unfold Touch, device_space, kWidth, kHeight.
  rewrite (index_check_passes i self touchpad Hi Hlook).
  pose proof (normalized_accepted x Hx) as Hax.
  pose proof (normalized_accepted y Hy) as Hay.
  apply orb_false_elim in Hax as [-> ->]. apply orb_false_elim in Hay as [-> ->].
  cbn [orb].
  destruct Hx as (Hvx & Hx0 & Hx1). destruct Hy as (Hvy & Hy0 & Hy1).
  destruct (device_coordinate_exact x Hvx Hx0 Hx1) as [-> _].
  destruct (device_coordinate_exact y Hvy Hy0 Hy1) as [-> _].
  cbn [mbind option_bind]. rewrite Hlook. cbn [mbind option_bind].
  rewrite touches_advance.
  destruct touchpad as [owned [inj|] lx ly t b]; reflexivity.
Qed.

Lemma received_invoke inj (c : call) :
  received (inj ~> c) = received inj ++ [c].
Proof. reflexivity. Qed.

(** C1: on an attached touchpad with in-range coordinates, the previous and
    the current contact sample select the calls [Touch] makes after
    [ResetError]: contact begins (history 01) gives position, press of
    [BTN_TOUCH], barrier; contact ends (history 10) gives release of
    [BTN_TOUCH], lift of slot 0, barrier, and no position; contact absent or
    sustained (history 00 or 11) gives position and barrier when the device
    position differs from the last one, and no call at all when it does
    not.  The last position is the one stored in the touchpad; the call
    stores its own device position there in each of the four cases and
    leaves ownership and button mask alone, so that the next [Touch]
    compares with the position of this one. *)
Theorem Touch_emission_sequences (i : Z) (x y pressure : float)
    self touchpad inj :
  0 <= i < kTouchpads self ->
  self !! Z.to_nat i = Some touchpad ->
  injector touchpad = Some inj ->
  normalized x -> normalized y ->
  let device_x := device_space x kWidth in
  let device_y := device_space y kHeight in
  let previous := Z.odd (touches touchpad) in
  let current := fgt pressure (float_of_int 0) in
  let position := SendMultiTouchXY 0 0 device_x device_y in
  let unchanged :=
    (device_x =? last_device_x touchpad) && (device_y =? last_device_y touchpad) in
  exists touchpad' inj',
    Touch i x y pressure self
      = Some (GetError inj', <[Z.to_nat i := touchpad']> self) /\
    injector touchpad' = Some inj' /\
    touches touchpad' = 2 * Z.b2z previous + Z.b2z current /\
    last_device_x touchpad' = device_x /\
    last_device_y touchpad' = device_y /\
    owned_injector touchpad' = owned_injector touchpad /\
    last_motion_event_buttons touchpad' = last_motion_event_buttons touchpad /\
    received inj' = received inj ++ ResetError ::
      match previous, current with
      | false, true => [position; SendKey BTN_TOUCH KEY_PRESS; SendSynReport]
      | true, false =>
          [SendKey BTN_TOUCH KEY_RELEASE; SendMultiTouchLift 0; SendSynReport]
      | _, _ => if unchanged then [] else [position; SendSynReport]
      end.
Proof.
  intros [Hi _] Hlook Hinj Hx Hy. cbv zeta.
  rewrite (Touch_validated i x y pressure self touchpad Hi Hlook Hx Hy), Hinj.
  cbv zeta. eexists _, _. split; [reflexivity|].
  split; [reflexivity|]. split; [reflexivity|].
  split; [reflexivity|]. split; [reflexivity|].
  split; [reflexivity|]. split; [reflexivity|].
  unfold Touch_emit.
  destruct (Z.odd (touches touchpad)), (fgt pressure (float_of_int 0));
    match goal with
    | |- context [2 * Z.b2z ?a + Z.b2z ?b] =>
        let h := eval vm_compute in (2 * Z.b2z a + Z.b2z b) in
        change (2 * Z.b2z a + Z.b2z b) with h
    end; cbv iota;
    repeat match goal with
      | |- context [?a =? ?b] => destruct (a =? b)
      end; cbn [negb orb andb];
    rewrite ?received_invoke, <- ?app_assoc; reflexivity.
Qed.

(** C6: a validated [Touch] on an attached touchpad stores the newly
    computed device coordinates as the last device position, whatever the
    pressure and the contact history, hence in every branch of the state
    machine, the contact-end branch included. *)
Theorem Touch_records_position (i : Z) (x y pressure : float)
    self touchpad inj :
  0 <= i < kTouchpads self ->
  self !! Z.to_nat i = Some touchpad ->
  injector touchpad = Some inj ->
  normalized x -> normalized y ->
  exists status self' touchpad',
    Touch i x y pressure self = Some (status, self') /\
    self' !! Z.to_nat i = Some touchpad' /\
    last_device_x touchpad' = device_space x kWidth /\
    last_device_y touchpad' = device_space y kHeight.
Proof.
  intros [Hi _] Hlook Hinj Hx Hy.
  rewrite (Touch_validated i x y pressure self touchpad Hi Hlook Hx Hy), Hinj.
  cbv zeta. eexists _, _, _. split; [reflexivity|].
  split; [apply list_lookup_insert_eq; eapply lookup_lt_Some; eassumption|].
  split; reflexivity.
Qed.

(** C8: a validated [Touch] on a touchpad without injector returns the
    sequencing error after having advanced the contact history; the last
    device position and the last button mask keep their values.  The state
    after the call differs from the state before whenever the history
    does. *)
Theorem Touch_detached_advances_history (i : Z) (x y pressure : float)
    self touchpad :
  0 <= i < kTouchpads self ->
  self !! Z.to_nat i = Some touchpad ->
  injector touchpad = None ->
  normalized x -> normalized y ->
  let history :=
    2 * Z.b2z (Z.odd (touches touchpad))
    + Z.b2z (fgt pressure (float_of_int 0)) in
  let touchpad' :=
    {| owned_injector := owned_injector touchpad;
       injector := None;
       last_device_x := last_device_x touchpad;
       last_device_y := last_device_y touchpad;
       touches := history;
       last_motion_event_buttons := last_motion_event_buttons touchpad |} in
  Touch i x y pressure self
    = Some (ERROR_SEQUENCING, <[Z.to_nat i := touchpad']> self) /\
  (touches touchpad <> history -> <[Z.to_nat i := touchpad']> self <> self).
Proof.
  intros [Hi _] Hlook Hinj Hx Hy. cbv zeta. split.
  - rewrite (Touch_validated i x y pressure self touchpad Hi Hlook Hx Hy), Hinj.
    cbv zeta. unfold set_touches. rewrite Hinj. reflexivity.
  - intros Hne Heq.
    assert (Hl := list_lookup_insert_eq self (Z.to_nat i)
                    {| owned_injector := owned_injector touchpad;
                       injector := None;
                       last_device_x := last_device_x touchpad;
                       last_device_y := last_device_y touchpad;
                       touches := 2 * Z.b2z (Z.odd (touches touchpad))
                                  + Z.b2z (fgt pressure (float_of_int 0));
                       last_motion_event_buttons :=
                         last_motion_event_buttons touchpad |}
                    (lookup_lt_Some _ _ _ Hlook)).
    rewrite Heq, Hlook in Hl. injection Hl as Hl. apply Hne.
    rewrite Hl at 1. reflexivity.
Qed.


(** *** Scroll *)

Lemma Qnum_pos_lt (r : Q) : 0 < Qnum r -> (0 < r)%Q.
Proof. unfold Qlt. cbn [Qnum Qden]. lia. Qed.

Lemma quantized_zero (v : float) : SF2Q v == 0 -> quantized v = 0.
Proof.
  unfold quantized, Qsign, Qeq. cbn [Qnum Qden]. intros Hz.
  replace (Qnum (SF2Q v)) with 0 by lia. reflexivity.
Qed.

Lemma quantized_nonzero (v : float) : ~ SF2Q v == 0 -> 1 <= Z.abs (quantized v).
Proof.
  unfold quantized, Qsign. set (q := SF2Q v). intros Hnz.
  assert (Hnum : Qnum q <> 0).
  { intros Hz. apply Hnz. unfold Qeq. cbn [Qnum Qden]. lia. }
  assert (Hpos : (0 < Qabs (4 * q))%Q).
  { apply Qnum_pos_lt. destruct q as [a b]. cbn [Qabs Qmult Qnum] in *. lia. }
  assert (Hceil : 0 < Qceiling (Qabs (4 * q))).
  { rewrite Zlt_Qlt. eapply Qlt_le_trans; [exact Hpos | apply Qle_ceiling]. }
  rewrite Z.abs_mul. destruct (Qnum q); cbn [Z.sgn Z.abs]; lia.
Qed.

(** C4: on an attached touchpad, for deltas in [[-1, 1]], [Scroll]
    quantizes each axis as [sign v * ceil |4 v|]: 0 for a zero input and of
    magnitude at least 1 for a nonzero one.  After [ResetError] it sends
    one relative event on [REL_HWHEEL] if the horizontal delta is nonzero,
    one on [REL_WHEEL] if the vertical one is, then one barrier if it sent
    an event, and nothing when both deltas are zero. *)
Theorem Scroll_quantized_emission (i : Z) (x y : float) self touchpad inj :
  0 <= i < kTouchpads self ->
  self !! Z.to_nat i = Some touchpad ->
  injector touchpad = Some inj ->
  scroll_delta x -> scroll_delta y ->
  let scaled_x := Qsign (SF2Q x) * Qceiling (Qabs (4 * SF2Q x)) in
  let scaled_y := Qsign (SF2Q y) * Qceiling (Qabs (4 * SF2Q y)) in
  scale_relative_scroll x = Some scaled_x /\
  scale_relative_scroll y = Some scaled_y /\
  (SF2Q x == 0 -> scaled_x = 0) /\ (~ SF2Q x == 0 -> 1 <= Z.abs scaled_x) /\
  (SF2Q y == 0 -> scaled_y = 0) /\ (~ SF2Q y == 0 -> 1 <= Z.abs scaled_y) /\
  REL_HWHEEL <> REL_WHEEL /\
  exists inj',
    Scroll i x y self
      = Some (GetError inj',
              <[Z.to_nat i :=
                  set_injector (owned_injector touchpad) (Some inj') touchpad]>
                self) /\
    received inj' = received inj ++ ResetError ::
      (if scaled_x =? 0 then [] else [SendRel REL_HWHEEL scaled_x]) ++
      (if scaled_y =? 0 then [] else [SendRel REL_WHEEL scaled_y]) ++
      (if (scaled_x =? 0) && (scaled_y =? 0) then [] else [SendSynReport]).
Proof.
  intros [Hi _] Hlook Hinj Hx Hy. cbv zeta.
  pose proof (scroll_delta_accepted x Hx) as Hax.
  pose proof (scroll_delta_accepted y Hy) as Hay.
  destruct Hx as (Hvx & Hx0 & Hx1). destruct Hy as (Hvy & Hy0 & Hy1).
  pose proof (scale_relative_scroll_exact x Hvx Hx0 Hx1) as Hsx.
  pose proof (scale_relative_scroll_exact y Hvy Hy0 Hy1) as Hsy.
  split; [exact Hsx|]. split; [exact Hsy|].
  split; [apply quantized_zero|]. split; [apply quantized_nonzero|].
  split; [apply quantized_zero|]. split; [apply quantized_nonzero|].
  split; [discriminate|].
  unfold Scroll. rewrite (index_check_passes i self touchpad Hi Hlook).
  apply orb_false_elim in Hax as [-> ->]. apply orb_false_elim in Hay as [-> ->].
  cbn [orb mbind option_bind]. rewrite Hlook. cbn [mbind option_bind].
  rewrite Hinj, Hsx, Hsy. cbn [mbind option_bind].
  eexists. split; [reflexivity|].
  destruct (_ =? 0), (_ =? 0); cbn [negb orb andb];
    rewrite ?received_invoke, <- ?app_assoc; reflexivity.
Qed.

(** *** Operations on a touchpad without injector *)

Lemma lxor_eqb_0 (a b : Z) : (Z.lxor a b =? 0) = (a =? b).
Proof.
  destruct (Z.eqb_spec a b) as [->|Hne].
  - rewrite Z.lxor_nilpotent. reflexivity.
  - apply Z.eqb_neq. intros Hz. apply Hne, Z.lxor_eq, Hz.
Qed.

Lemma insert_keeps_injectors (n : nat) self touchpad touchpad' :
  self !! n = Some touchpad -> injector touchpad' = injector touchpad ->
  injector <$> <[n := touchpad']> self = injector <$> self.
Proof.
  intros Hlook Hinj. rewrite list_fmap_insert, Hinj.
  apply list_insert_id. rewrite list_lookup_fmap, Hlook. reflexivity.
Qed.

(** C2, as the code has it: on an in-range touchpad without injector and
    with arguments in range, [Touch] and [Scroll] return the sequencing
    error and no injector receives a call; [ButtonState] with a recognized
    mask does the same when the mask differs from the stored one, and
    returns 0, again without any call, when the mask equals the stored
    one. *)
Theorem detached_operations (i : Z) (x y pressure dx dy : float) (buttons : Z)
    self touchpad :
  0 <= i < kTouchpads self ->
  self !! Z.to_nat i = Some touchpad ->
  injector touchpad = None ->
  normalized x -> normalized y ->
  scroll_delta dx -> scroll_delta dy ->
  Z.land buttons (Z.lnot AMOTION_EVENT_BUTTON_BACK) = 0 ->
  (exists self',
      Touch i x y pressure self = Some (ERROR_SEQUENCING, self') /\
      injector <$> self' = injector <$> self) /\
  Scroll i dx dy self = Some (ERROR_SEQUENCING, self) /\
  ButtonState i buttons self
    = Some (if buttons =? last_motion_event_buttons touchpad
            then 0 else ERROR_SEQUENCING, self).
Proof.
  intros [Hi _] Hlook Hinj Hx Hy Hdx Hdy Hb. split; [|split].
  - rewrite (Touch_validated i x y pressure self touchpad Hi Hlook Hx Hy), Hinj.
    cbv zeta. eexists. split; [reflexivity|].
    apply (insert_keeps_injectors _ _ touchpad); [exact Hlook | reflexivity].
  - unfold Scroll. rewrite (index_check_passes i self touchpad Hi Hlook).
    apply scroll_delta_accepted, orb_false_elim in Hdx as [-> ->].
    apply scroll_delta_accepted, orb_false_elim in Hdy as [-> ->].
    cbn [orb]. rewrite Hlook. cbn [mbind option_bind]. rewrite Hinj. reflexivity.
  - unfold ButtonState. rewrite (index_check_passes i self touchpad Hi Hlook).
    rewrite Hlook. cbn [mbind option_bind].
    rewrite lxor_eqb_0, (Z.eqb_sym buttons).
    destruct (_ =? buttons); [reflexivity|].
    rewrite Hb, Hinj. reflexivity.
Qed.

End EventOperations.

(** ** The stored button mask *)

Section ButtonMask.

Context `{Declarations}.

Implicit Types (self : list Touchpad) (touchpad : Touchpad).

Lemma Reset_buttons_zero self :
  Forall (fun touchpad => last_motion_event_buttons touchpad = 0) (Reset self).
Proof. unfold Reset. apply Forall_fmap, Forall_true. reflexivity. Qed.

Lemma buttons_zero_recognized self :
  Forall (fun touchpad => last_motion_event_buttons touchpad = 0) self ->
  buttons_recognized self.
Proof.
  unfold buttons_recognized. intros Hz. eapply Forall_impl; [exact Hz|].
  intros touchpad ->. reflexivity.
Qed.

(** What [Attach] does to each array element: the injector is the old one,
    or a new owned one, after the configuration calls; the other fields
    keep their values. *)
Lemma Attach_loop_lookup (k : Z) (touchpads : list Touchpad) (status : Z)
    (n : nat) touchpad :
  touchpads !! n = Some touchpad ->
  snd (Attach_loop k touchpads status) !! n
  = Some {| owned_injector :=
              match injector touchpad with
              | None => true
              | Some _ => owned_injector touchpad
              end;
            injector :=
              Some (Attach_configure (k + Z.of_nat n)
                      (default new_EvdevInjector (injector touchpad)));
            last_device_x := last_device_x touchpad;
            last_device_y := last_device_y touchpad;
            touches := touches touchpad;
            last_motion_event_buttons := last_motion_event_buttons touchpad |}.
Proof.
  revert k status n. induction touchpads as [|t rest IH]; intros k status n Hn;
    [discriminate|].
  cbn [Attach_loop].
  destruct (injector t) as [inj|] eqn:Einj; cbv beta iota zeta;
    match goal with
    | |- context [Attach_loop (k + 1) rest ?st] =>
        pose proof (IH (k + 1) st) as IH';
        destruct (Attach_loop (k + 1) rest st) as [status' rest']
    end;
    (destruct n as [|n];
     [ injection Hn as <-; cbn [snd lookup list_lookup default id];
       rewrite Einj, Z.add_0_r; reflexivity
     | cbn [snd] in IH' |- *; cbn in Hn;
       change ((set_injector _ _ t :: rest') !! S n) with (rest' !! n);
       rewrite (IH' n Hn);
       replace (k + Z.of_nat (S n)) with (k + 1 + Z.of_nat n) by lia; reflexivity ]).
Qed.

Lemma Attach_loop_length (k : Z) (touchpads : list Touchpad) (status : Z) :
  length (snd (Attach_loop k touchpads status)) = length touchpads.
Proof.
  revert k status. induction touchpads as [|t rest IH]; intros k status;
    [reflexivity|].
  cbn [Attach_loop].
  destruct (injector t); cbv beta iota zeta;
    match goal with
    | |- context [Attach_loop (k + 1) rest ?st] =>
        pose proof (IH (k + 1) st) as IH';
        destruct (Attach_loop (k + 1) rest st) as [status' rest']
    end; cbn [snd length] in IH' |- *; rewrite IH'; reflexivity.
Qed.

Lemma Attach_buttons_recognized self :
  buttons_recognized self -> buttons_recognized (snd (Attach self)).
Proof.
  unfold buttons_recognized, Attach. rewrite !Forall_lookup.
  intros Hinv n touchpad' Hn.
  assert (Hlt : (n < length self)%nat).
  { rewrite <- (Attach_loop_length 0 self OK). eapply lookup_lt_Some, Hn. }
  destruct (lookup_lt_is_Some_2 self n Hlt) as [touchpad Hlook].
  rewrite (Attach_loop_lookup 0 self OK n touchpad Hlook) in Hn.
  injection Hn as <-. exact (Hinv n touchpad Hlook).
Qed.

Lemma insert_buttons_recognized (n : nat) self touchpad touchpad' :
  buttons_recognized self -> self !! n = Some touchpad ->
  last_motion_event_buttons touchpad' = last_motion_event_buttons touchpad ->
  buttons_recognized (<[n := touchpad']> self).
Proof.
  unfold buttons_recognized. intros Hinv Hlook Heq.
  apply Forall_insert; [exact Hinv|]. rewrite Heq.
  exact (proj1 (Forall_lookup _ _) Hinv n touchpad Hlook).
Qed.

Lemma Touch_buttons_recognized (i : Z) (x y pressure : float) self status self' :
  buttons_recognized self ->
  Touch i x y pressure self = Some (status, self') ->
  buttons_recognized self'.
Proof.
  intros Hinv. unfold Touch.
  destruct (_ || _); [intros [= _ <-]; exact Hinv|].
  destruct (_ || _); [intros [= _ <-]; exact Hinv|].
  destruct (device_coordinate x kWidth) as [device_x|]; [|discriminate].
  destruct (device_coordinate y kHeight) as [device_y|]; [|discriminate].
  cbn [mbind option_bind].
  destruct (self !! Z.to_nat i) as [touchpad|] eqn:Hlook; [|discriminate].
  cbn [mbind option_bind set_touches injector].
  destruct (injector touchpad); intros [= _ <-];
    apply (insert_buttons_recognized _ _ touchpad); auto.
Qed.

Lemma Scroll_buttons_recognized (i : Z) (x y : float) self status self' :
  buttons_recognized self ->
  Scroll i x y self = Some (status, self') ->
  buttons_recognized self'.
Proof.
  intros Hinv. unfold Scroll.
  destruct (_ || _); [intros [= _ <-]; exact Hinv|].
  destruct (_ || _); [intros [= _ <-]; exact Hinv|].
  destruct (self !! Z.to_nat i) as [touchpad|] eqn:Hlook; [|discriminate].
  cbn [mbind option_bind].
  destruct (injector touchpad); [|intros [= _ <-]; exact Hinv].
  destruct (scale_relative_scroll x); [|discriminate].
  destruct (scale_relative_scroll y); [|discriminate].
  cbn [mbind option_bind]. intros [= _ <-].
  apply (insert_buttons_recognized _ _ touchpad); auto.
Qed.

Lemma ButtonState_buttons_recognized (i buttons : Z) self status self' :
  buttons_recognized self ->
  ButtonState i buttons self = Some (status, self') ->
  buttons_recognized self'.
Proof.
  intros Hinv. unfold ButtonState.
  destruct (_ || _); [intros [= _ <-]; exact Hinv|].
  destruct (self !! Z.to_nat i) as [touchpad|] eqn:Hlook; [|discriminate].
  cbn [mbind option_bind].
  destruct (_ =? 0); [intros [= _ <-]; exact Hinv|].
  destruct (Z.eqb_spec (Z.land buttons (Z.lnot AMOTION_EVENT_BUTTON_BACK)) 0)
    as [Hrec|_]; cbn [negb]; [|intros [= _ <-]; exact Hinv].
  destruct (injector touchpad); intros [= _ <-]; [|exact Hinv].
  unfold buttons_recognized. apply Forall_insert; [exact Hinv | exact Hrec].
Qed.

Lemma perform_buttons_recognized (op : operation) self self' :
  buttons_recognized self -> perform op self = Some self' ->
  buttons_recognized self'.
Proof.
  intros Hinv. destruct op as [| | |i x y p|i b|i x y]; cbn [perform].
  - intros [= <-]. apply buttons_zero_recognized, Reset_buttons_zero.
  - intros [= <-]. apply Attach_buttons_recognized, Hinv.
  - intros [= <-]. apply buttons_zero_recognized, Reset_buttons_zero.
  - destruct (Touch i x y p self) as [[status s]|] eqn:E; [|discriminate].
    intros [= <-]. eapply Touch_buttons_recognized; eassumption.
  - destruct (ButtonState i b self) as [[status s]|] eqn:E; [|discriminate].
    intros [= <-]. eapply ButtonState_buttons_recognized; eassumption.
  - destruct (Scroll i x y self) as [[status s]|] eqn:E; [|discriminate].
    intros [= <-]. eapply Scroll_buttons_recognized; eassumption.
Qed.

Lemma reachable_buttons_recognized (n : nat) self :
  reachable n self -> buttons_recognized self.
Proof.
  induction 1 as [|op self self' _ IH Hop].
  - apply buttons_zero_recognized, Reset_buttons_zero.
  - eapply perform_buttons_recognized; eassumption.
Qed.

(** With recognized bits only in the stored mask, a mask with another bit
    differs from it, so [ButtonState] reaches its check of the mask. *)
Lemma ButtonState_unrecognized (i buttons : Z) self :
  buttons_recognized self ->
  0 <= i < kTouchpads self ->
  Z.land buttons (Z.lnot AMOTION_EVENT_BUTTON_BACK) <> 0 ->
  ButtonState i buttons self = Some (ENOTSUP, self).
Proof.
  intros Hinv [Hi Hlt] Hbad.
  destruct (lookup_lt_is_Some_2 self (Z.to_nat i)) as [touchpad Hlook];
    [unfold kTouchpads in Hlt; lia|].
  unfold ButtonState. rewrite (index_check_passes i self touchpad Hi Hlook).
  rewrite Hlook. cbn [mbind option_bind]. rewrite lxor_eqb_0.
  destruct (Z.eqb_spec (last_motion_event_buttons touchpad) buttons) as [Heq|_].
  - exfalso. apply Hbad. rewrite <- Heq.
    exact (proj1 (Forall_lookup _ _) Hinv _ touchpad Hlook).
  - destruct (Z.eqb_spec (Z.land buttons (Z.lnot AMOTION_EVENT_BUTTON_BACK)) 0);
      [contradiction | reflexivity].
Qed.

(** C5: in every state the manager can be in, [ButtonState] on an in-range
    index with a mask that has a bit other than the back-button bit returns
    [ENOTSUP] and leaves the manager, injectors included, as it was. *)
Theorem ButtonState_unrecognized_not_supported (n : nat) (i buttons : Z) self :
  reachable n self ->
  0 <= i < kTouchpads self ->
  Z.land buttons (Z.lnot AMOTION_EVENT_BUTTON_BACK) <> 0 ->
  ButtonState i buttons self = Some (ENOTSUP, self).
Proof.
  intros Hreach. apply ButtonState_unrecognized.
  eapply reachable_buttons_recognized, Hreach.
Qed.

(** C9: the stored button mask of every touchpad has no bit outside the
    back-button bit.  It is zero after [Create], [Reset] and [Detach]; every
    operation keeps the property, so it holds in every state the manager can
    be in; and there the equal-mask shortcut of [ButtonState] does not
    return success for a mask with an unrecognized bit. *)
Theorem last_buttons_recognized (n : nat) (op : operation) (i buttons : Z)
    self self' :
  reachable n self ->
  perform op self = Some self' ->
  0 <= i < kTouchpads self ->
  Z.land buttons (Z.lnot AMOTION_EVENT_BUTTON_BACK) <> 0 ->
  Forall (fun touchpad => last_motion_event_buttons touchpad = 0) (Create n) /\
  Forall (fun touchpad => last_motion_event_buttons touchpad = 0) (Reset self) /\
  Forall (fun touchpad => last_motion_event_buttons touchpad = 0)
         (snd (Detach self)) /\
  buttons_recognized self /\
  buttons_recognized self' /\
  ButtonState i buttons self <> Some (0, self).
Proof.
  intros Hreach Hop Hi Hbad.
  pose proof (reachable_buttons_recognized n self Hreach) as Hinv.
  split; [apply Reset_buttons_zero|].
  split; [apply Reset_buttons_zero|].
  split; [apply Reset_buttons_zero|].
  split; [exact Hinv|].
  split; [eapply perform_buttons_recognized; eassumption|].
  rewrite (ButtonState_unrecognized i buttons self Hinv Hi Hbad). discriminate.
Qed.

End ButtonMask.

(** ** Attach *)

Section AttachFacts.

Context `{Declarations}.

(** C7, as the code has it: [Attach] gives every touchpad an injector, the
    one it had or else a new owned one, makes the configuration calls on
    it, and leaves the last device position, the contact history and the
    last button mask of the touchpad as they were. *)
Theorem Attach_keeps_transient_fields (n : nat) (self : list Touchpad)
    (touchpad : Touchpad) :
  self !! n = Some touchpad ->
  exists touchpad',
    snd (Attach self) !! n = Some touchpad' /\
    injector touchpad'
      = Some (Attach_configure (Z.of_nat n)
                (default new_EvdevInjector (injector touchpad))) /\
    owned_injector touchpad'
      = match injector touchpad with
        | None => true
        | Some _ => owned_injector touchpad
        end /\
    last_device_x touchpad' = last_device_x touchpad /\
    last_device_y touchpad' = last_device_y touchpad /\
    touches touchpad' = touches touchpad /\
    last_motion_event_buttons touchpad' = last_motion_event_buttons touchpad.
Proof.
  intros Hlook. eexists. split.
  - unfold Attach. rewrite (Attach_loop_lookup 0 self OK n touchpad Hlook).
    rewrite Z.add_0_l. reflexivity.
  - repeat split; reflexivity.
Qed.

End AttachFacts.

(** ** The diagnostic dump *)

Section DumpFacts.

Context `{Declarations}.

Lemma dumpInternal_loop_stops (i : Z) (before after : list Touchpad)
    (touchpad : Touchpad) (result : string) :
  Forall (fun t => is_Some (injector t)) before ->
  injector touchpad = None ->
  dumpInternal_loop i (before ++ touchpad :: after) result
  = (dumpInternal_loop i before result
       +:+ "[virtual touchpad " +:+ format_d (i + Z.of_nat (length before))
       +:+ "]" +:+ LF)
    +:+ "injector = none" +:+ LF.
Proof.
  intros Hbefore Hnone. revert i result.
  induction Hbefore as [|t before [inj Hinj] _ IH]; intros i result.
  - cbn [app dumpInternal_loop length Z.of_nat]. rewrite Hnone, Z.add_0_r.
    reflexivity.
  - cbn [app dumpInternal_loop]. rewrite Hinj, IH.
    replace (i + 1 + Z.of_nat (length before))
      with (i + Z.of_nat (length (t :: before)))
      by (cbn [length]; lia).
    reflexivity.
Qed.

(** C10: when a touchpad has no injector and all touchpads before it have
    one, the dump is the report of the touchpads before it, then the header
    of that touchpad and the line [injector = none]; the touchpads after it
    contribute nothing. *)
Theorem dumpInternal_stops_at_detached (before after : list Touchpad)
    (touchpad : Touchpad) (result : string) :
  Forall (fun t => is_Some (injector t)) before ->
  injector touchpad = None ->
  dumpInternal (before ++ touchpad :: after) result
  = (dumpInternal before result
       +:+ "[virtual touchpad " +:+ format_d (Z.of_nat (length before))
       +:+ "]" +:+ LF)
    +:+ "injector = none" +:+ LF
  /\ dumpInternal (before ++ touchpad :: after) result
     = dumpInternal (before ++ [touchpad]) result.
Proof.
  intros Hbefore Hnone. unfold dumpInternal.
  rewrite !(dumpInternal_loop_stops 0 before _ touchpad result Hbefore Hnone).
  split; reflexivity.
Qed.

End DumpFacts.

(** ** Runs on a manager of two touchpads *)

Section Runs.

#[local] Existing Instance platform.

Lemma normalized_0_5 : normalized f_0_5.
Proof. repeat split. Defined.

Lemma normalized_0_25 : normalized f_0_25.
Proof. repeat split. Defined.

Lemma scroll_delta_0_1 : scroll_delta f_0_1.
Proof. repeat split. Defined.

Lemma scroll_delta_0_0 : scroll_delta f_0_0.
Proof. repeat split. Defined.

Lemma index_0_in_range (self : list Touchpad) :
  length self = 2%nat -> 0 <= 0 < kTouchpads self.
Proof. unfold kTouchpads. intros ->. split; [discriminate | reflexivity]. Defined.

Lemma reachable_attached : reachable 2 attached.
Proof.
  exact (reachable_perform 2 OpAttach detached attached (reachable_Create 2) eq_refl).
Defined.

(** Contact begins at (0.5, 0.25) on the attached touchpad 0. *)
Lemma Touch_emission_sequences_witness :
  exists touchpad' inj',
    Touch 0 f_0_5 f_0_25 f_1_0 attached
      = Some (GetError inj', <[0%nat := touchpad']> attached) /\
    injector touchpad' = Some inj' /\
    touches touchpad' = 1 /\
    last_device_x touchpad' = 32768 /\
    last_device_y touchpad' = 16384 /\
    owned_injector touchpad' = true /\
    last_motion_event_buttons touchpad' = 0 /\
    received inj'
      = received (Attach_configure 0 new_EvdevInjector)
        ++ [ResetError; SendMultiTouchXY 0 0 32768 16384;
            SendKey BTN_TOUCH KEY_PRESS; SendSynReport].
Proof.
  exact (Touch_emission_sequences 0 f_0_5 f_0_25 f_1_0 attached
           (attached_touchpad 0) (Attach_configure 0 new_EvdevInjector)
           (index_0_in_range attached eq_refl) eq_refl eq_refl
           normalized_0_5 normalized_0_25).
Defined.


(** A scroll of (0.1, 0) on the attached touchpad 0. *)
Lemma Scroll_quantized_emission_witness :
  scale_relative_scroll f_0_1 = Some 1 /\
  scale_relative_scroll f_0_0 = Some 0 /\
  exists inj',
    Scroll 0 f_0_1 f_0_0 attached
      = Some (GetError inj',
              <[0%nat := set_injector true (Some inj') (attached_touchpad 0)]>
                attached) /\
    received inj'
      = received (Attach_configure 0 new_EvdevInjector)
        ++ [ResetError; SendRel REL_HWHEEL 1; SendSynReport].
Proof.
  destruct (Scroll_quantized_emission 0 f_0_1 f_0_0 attached
              (attached_touchpad 0) (Attach_configure 0 new_EvdevInjector)
              (index_0_in_range attached eq_refl) eq_refl eq_refl
              scroll_delta_0_1 scroll_delta_0_0)
    as (Hx & Hy & _ & _ & _ & _ & _ & Hemit).
  exact (conj Hx (conj Hy Hemit)).
Defined.

Lemma unrecognized_bit_0 : Z.land 1 (Z.lnot AMOTION_EVENT_BUTTON_BACK) <> 0.
Proof. discriminate. Defined.

Lemma ButtonState_unrecognized_not_supported_witness :
  ButtonState 0 1 attached = Some (ENOTSUP, attached).
Proof.
  exact (ButtonState_unrecognized_not_supported 2 0 1 attached
           reachable_attached (index_0_in_range attached eq_refl)
           unrecognized_bit_0).
Defined.

(** Contact ends at (0.25, 0.5) on touchpad 0 of [used]. *)
Lemma Touch_records_position_witness :
  exists status self' touchpad',
    Touch 0 f_0_25 f_0_5 f_0_0 used = Some (status, self') /\
    self' !! 0%nat = Some touchpad' /\
    last_device_x touchpad' = 16384 /\
    last_device_y touchpad' = 32768.
Proof.
  eapply (Touch_records_position 0 f_0_25 f_0_5 f_0_0 used).
  - exact (index_0_in_range used eq_refl).
  - reflexivity.
  - reflexivity.
  - exact normalized_0_25.
  - exact normalized_0_5.
Defined.

(** A press on touchpad 0 of the created manager. *)
Lemma Touch_detached_advances_history_witness :
  Touch 0 f_0_5 f_0_25 f_1_0 detached
    = Some (ERROR_SEQUENCING,
            <[0%nat := set_touches 1 detached_touchpad]> detached) /\
  <[0%nat := set_touches 1 detached_touchpad]> detached <> detached.
Proof.
  destruct (Touch_detached_advances_history 0 f_0_5 f_0_25 f_1_0 detached
              detached_touchpad (index_0_in_range detached eq_refl) eq_refl
              eq_refl normalized_0_5 normalized_0_25) as [Hret Hstate].
  split; [exact Hret | apply Hstate; discriminate].
Defined.

Lemma last_buttons_recognized_witness :
  buttons_recognized attached /\
  buttons_recognized (snd (Attach attached)) /\
  ButtonState 0 1 attached <> Some (0, attached).
Proof.
  destruct (last_buttons_recognized 2 OpAttach 0 1 attached (snd (Attach attached))
              reachable_attached eq_refl (index_0_in_range attached eq_refl)
              unrecognized_bit_0) as (_ & _ & _ & Hself & Hself' & Hshortcut).
  exact (conj Hself (conj Hself' Hshortcut)).
Defined.

Lemma Attach_keeps_transient_fields_witness :
  exists touchpad',
    snd (Attach used) !! 0%nat = Some touchpad' /\
    last_device_x touchpad' = 32768 /\
    last_device_y touchpad' = 16384 /\
    touches touchpad' = 1 /\
    last_motion_event_buttons touchpad' = 8.
Proof.
  destruct (Attach_keeps_transient_fields 0 used _ eq_refl)
    as (touchpad' & Hlook & _ & _ & Hx & Hy & Ht & Hb).
  exists touchpad'. exact (conj Hlook (conj Hx (conj Hy (conj Ht Hb)))).
Defined.

Lemma dumpInternal_stops_at_detached_witness :
  dumpInternal detached EmptyString
    = ("[virtual touchpad 0]" +:+ LF +:+ "injector = none" +:+ LF)%string /\
  dumpInternal detached EmptyString = dumpInternal [detached_touchpad] EmptyString.
Proof.
  exact (dumpInternal_stops_at_detached [] [detached_touchpad]
           detached_touchpad EmptyString (Forall_nil_2 _) eq_refl).
Defined.

Lemma recognized_0 : Z.land 0 (Z.lnot AMOTION_EVENT_BUTTON_BACK) = 0.
Proof. reflexivity. Defined.

Lemma detached_operations_witness :
  (exists self',
      Touch 0 f_0_5 f_0_25 f_1_0 detached = Some (ERROR_SEQUENCING, self') /\
      injector <$> self' = injector <$> detached) /\
  Scroll 0 f_0_1 f_0_0 detached = Some (ERROR_SEQUENCING, detached) /\
  ButtonState 0 0 detached = Some (0, detached).
Proof.
  exact (detached_operations 0 f_0_5 f_0_25 f_1_0 f_0_1 f_0_0 0 detached
           detached_touchpad (index_0_in_range detached eq_refl) eq_refl
           eq_refl normalized_0_5 normalized_0_25 scroll_delta_0_1
           scroll_delta_0_0 recognized_0).
Defined.

(** Hover, press, drag, release on the attached touchpad 0: the calls made
    on its injector after the configuration. *)
Example Touch_hover_press_drag_release :
  (self ← perform_all [OpTouch 0 f_0_5 f_0_25 f_0_0;
                       OpTouch 0 f_0_5 f_0_25 f_1_0;
                       OpTouch 0 f_0_25 f_0_25 f_1_0;
                       OpTouch 0 f_0_25 f_0_25 f_0_0] attached;
   touchpad ← self !! 0%nat;
   inj ← injector touchpad;
   Some (drop 7 (received inj)))
  = Some [ResetError; SendMultiTouchXY 0 0 32768 16384; SendSynReport;
          ResetError; SendMultiTouchXY 0 0 32768 16384;
          SendKey BTN_TOUCH KEY_PRESS; SendSynReport;
          ResetError; SendMultiTouchXY 0 0 16384 16384; SendSynReport;
          ResetError; SendKey BTN_TOUCH KEY_RELEASE; SendMultiTouchLift 0;
          SendSynReport].
Proof. reflexivity. Qed.

(** A NaN coordinate is not rejected by the range test of [Touch]; the
    conversion to [int32_t] that follows has no defined result. *)
Remark Touch_nan_coordinate :
  flt S754_nan f_0_0 || fge S754_nan f_1_0 = false /\
  Touch 0 S754_nan f_0_25 f_1_0 attached = None.
Proof. split; reflexivity. Qed.

(** *** Where the code departs from the specification *)

(** C2 fails for [ButtonState]: on the created manager, whose touchpad 0 has
    no injector, the recognized mask 0 equals the stored mask, and
    [ButtonState] returns 0, not the sequencing error. *)
Lemma ButtonState_detached_equal_mask_succeeds :
  0 <= 0 < kTouchpads detached /\
  detached !! 0%nat = Some detached_touchpad /\
  injector detached_touchpad = None /\
  Z.land 0 (Z.lnot AMOTION_EVENT_BUTTON_BACK) = 0 /\
  ButtonState 0 0 detached = Some (0, detached) /\
  ERROR_SEQUENCING <> 0.
Proof.
  split; [exact (index_0_in_range detached eq_refl)|].
  repeat split; discriminate.
Qed.

(** C7 fails: [used] is reached from the created manager by [Attach], a
    press at (0.5, 0.25) and a press of the back button; a second [Attach]
    leaves last position, contact history and button mask of touchpad 0 at
    (32768, 16384), 1 and 8, none of them reset. *)
Lemma Attach_does_not_reset :
  perform_all [OpAttach; OpTouch 0 f_0_5 f_0_25 f_1_0; OpButtonState 0 8]
    (Create 2) = Some used /\
  (exists touchpad',
      snd (Attach used) !! 0%nat = Some touchpad' /\
      last_device_x touchpad' = 32768 /\
      last_device_y touchpad' = 16384 /\
      touches touchpad' = 1 /\
      last_motion_event_buttons touchpad' = 8) /\
  ~ Forall (fun touchpad =>
              last_device_x touchpad = INT32_MIN /\
              last_device_y touchpad = INT32_MIN /\
              touches touchpad = 0 /\
              last_motion_event_buttons touchpad = 0)
           (snd (Attach used)).
Proof.
  split; [vm_compute; reflexivity|]. split.
  - eexists. split; [reflexivity|]. repeat split.
  - intros Hall. apply Forall_cons_1 in Hall as [(_ & _ & Ht & _) _].
    discriminate Ht.
Qed.

End Runs.

(** ** Order of binary32 values *)

Section FloatOrder.

Lemma pow2_pos (k : Z) : (0 < 2 ^ k)%Q.
Proof. apply Qpower_0_lt. reflexivity. Qed.

(** A binary32 number as an integer multiple of [2^-149]. *)
Lemma SF2Q_scaled (s : bool) (m : positive) (e : Z) :
  bounded prec emax m e = true ->
  SF2Q (S754_finite s m e)
  == inject_Z (cond_Zopp s (Z.pos m * 2 ^ (e + 149))) * 2 ^ (-149).
Proof.
  intros Hb. apply bounded_inv in Hb as (_ & He & _). cbn [SF2Q].
  assert (Hsplit : (2 ^ e == 2 ^ (e + 149) * 2 ^ (-149))%Q).
  { rewrite <- Qpow2_add. replace (e + 149 + -149) with e by lia. reflexivity. }
  rewrite Hsplit, Qmult_assoc. apply Qmult_comp; [|reflexivity].
  assert (Hp : (2 ^ (e + 149) == inject_Z (2 ^ (e + 149)))%Q)
    by (rewrite Zpower_Qpower by lia; reflexivity).
  rewrite Hp, <- inject_Z_mult.
  destruct s; cbn [cond_Zopp]; [|reflexivity].
  rewrite Z.mul_opp_l. reflexivity.
Qed.

Lemma Qcompare_scaled (a b : Z) (c : Q) :
  (0 < c)%Q -> (inject_Z a * c ?= inject_Z b * c)%Q = (a ?= b).
Proof.
  intros Hc. destruct (Z.compare_spec a b) as [->|Hlt|Hgt].
  - apply Qeq_alt. reflexivity.
  - apply Qlt_alt, Qmult_lt_r; [exact Hc|]. rewrite <- Zlt_Qlt. exact Hlt.
  - apply Qgt_alt, Qmult_lt_r; [exact Hc|]. rewrite <- Zlt_Qlt. exact Hgt.
Qed.

Lemma bounded_scaled_lt (m1 m2 : positive) (e1 e2 : Z) :
  bounded prec emax m1 e1 = true -> bounded prec emax m2 e2 = true ->
  e1 < e2 ->
  Z.pos m1 * 2 ^ (e1 + 149) < Z.pos m2 * 2 ^ (e2 + 149).
Proof.
  intros Hb1 Hb2 Hlt.
  apply bounded_inv in Hb1 as (Hd1 & He1 & _).
  apply bounded_inv in Hb2 as (Hd2 & He2 & Hcan2).
  pose proof (pos_lt_pow2_24 m1 ltac:(lia)) as Hm1.
  pose proof (digits2_pos_bounds m2) as [Hm2 _].
  assert (Hd24 : Z.pos (digits2_pos m2) = 24) by lia.
  rewrite Hd24 in Hm2. change (2 ^ (24 - 1)) with (2 ^ 23) in Hm2.
  assert (Hp1 : 0 < 2 ^ (e1 + 149)) by (apply Z.pow_pos_nonneg; lia).
  assert (Hp2 : 0 < 2 ^ (e2 + 149)) by (apply Z.pow_pos_nonneg; lia).
  apply Z.lt_le_trans with (2 ^ 24 * 2 ^ (e1 + 149)).
  - apply Z.mul_lt_mono_pos_r; assumption.
  - apply Z.le_trans with (2 ^ 23 * 2 ^ (e2 + 149)).
    + rewrite <- !Z.pow_add_r by lia. apply Z.pow_le_mono_r; lia.
    + apply Z.mul_le_mono_nonneg_r; lia.
Qed.

(** On binary32 numbers the comparison of floats is the comparison of the
    numbers they denote. *)
Lemma SFcompare_SF2Q (x y : float) :
  is_float x -> is_float y -> is_finite x = true -> is_finite y = true ->
  SFcompare x y = Some (SF2Q x ?= SF2Q y)%Q.
Proof.
  intros Hx Hy Hfx Hfy.
  assert (Hz : (0 == inject_Z 0 * 2 ^ (-149))%Q) by (symmetry; apply Qmult_0_l).
  destruct x as [sx| | |sx mx ex]; try discriminate;
    destruct y as [sy| | |sy my ey]; try discriminate.
  - reflexivity.
  - change (SF2Q (S754_zero sx)) with 0%Q.
    rewrite (Qcompare_comp _ _ Hz _ _ (SF2Q_scaled sy my ey Hy)).
    rewrite Qcompare_scaled by apply pow2_pos.
    assert (0 < Z.pos my * 2 ^ (ey + 149))
      by (apply Z.mul_pos_pos; [lia | apply Z.pow_pos_nonneg;
          apply bounded_inv in Hy; lia]).
    cbn [SFcompare]. destruct sy; cbn [cond_Zopp]; f_equal; symmetry.
    + apply Z.compare_gt_iff. lia.
    + apply Z.compare_lt_iff. lia.
  - change (SF2Q (S754_zero sy)) with 0%Q.
    rewrite (Qcompare_comp _ _ (SF2Q_scaled sx mx ex Hx) _ _ Hz).
    rewrite Qcompare_scaled by apply pow2_pos.
    assert (0 < Z.pos mx * 2 ^ (ex + 149))
      by (apply Z.mul_pos_pos; [lia | apply Z.pow_pos_nonneg;
          apply bounded_inv in Hx; lia]).
    cbn [SFcompare]. destruct sx; cbn [cond_Zopp]; f_equal; symmetry.
    + apply Z.compare_lt_iff. lia.
    + apply Z.compare_gt_iff. lia.
  - rewrite (Qcompare_comp _ _ (SF2Q_scaled sx mx ex Hx)
               _ _ (SF2Q_scaled sy my ey Hy)).
    rewrite Qcompare_scaled by apply pow2_pos.
    pose proof (bounded_inv mx ex Hx) as (_ & Hex & _).
    pose proof (bounded_inv my ey Hy) as (_ & Hey & _).
    assert (Hpx : 0 < Z.pos mx * 2 ^ (ex + 149))
      by (apply Z.mul_pos_pos; [lia | apply Z.pow_pos_nonneg; lia]).
    assert (Hpy : 0 < Z.pos my * 2 ^ (ey + 149))
      by (apply Z.mul_pos_pos; [lia | apply Z.pow_pos_nonneg; lia]).
    assert (Hlt : ex < ey ->
              Z.pos mx * 2 ^ (ex + 149) < Z.pos my * 2 ^ (ey + 149))
      by (apply bounded_scaled_lt; assumption).
    assert (Hgt : ey < ex ->
              Z.pos my * 2 ^ (ey + 149) < Z.pos mx * 2 ^ (ex + 149))
      by (apply bounded_scaled_lt; assumption).
    assert (Heq : ex = ey ->
              (Z.pos mx * 2 ^ (ex + 149) ?= Z.pos my * 2 ^ (ey + 149))
              = (Z.pos mx ?= Z.pos my)).
    { intros ->. symmetry. apply Zmult_compare_compat_r.
      apply Z.lt_gt, Z.pow_pos_nonneg; lia. }
    destruct sx, sy; cbn [cond_Zopp].
    + rewrite SFcompare_finite_neg, Z.compare_opp. f_equal.
      destruct (Z.compare_spec ex ey) as [E|E|E].
      * rewrite (Z.compare_antisym (Z.pos mx * 2 ^ (ex + 149))).
        f_equal. symmetry. apply Heq, E.
      * symmetry. apply Z.compare_gt_iff, Hlt, E.
      * symmetry. apply Z.compare_lt_iff, Hgt, E.
    + cbn [SFcompare]. f_equal. symmetry. apply Z.compare_lt_iff. lia.
    + cbn [SFcompare]. f_equal. symmetry. apply Z.compare_gt_iff. lia.
    + rewrite SFcompare_finite_pos. f_equal.
      destruct (Z.compare_spec ex ey) as [E|E|E].
      * symmetry. apply Heq, E.
      * symmetry. apply Z.compare_lt_iff, Hlt, E.
      * symmetry. apply Z.compare_gt_iff, Hgt, E.
Qed.

Lemma flt_SF2Q (x y : float) :
  is_float x -> is_float y -> is_finite x = true -> is_finite y = true ->
  flt x y = true <-> (SF2Q x < SF2Q y)%Q.
Proof.
  intros Hx Hy Hfx Hfy. unfold flt, SFltb.
  rewrite (SFcompare_SF2Q x y Hx Hy Hfx Hfy), Qlt_alt.
  destruct (SF2Q x ?= SF2Q y)%Q; split; congruence.
Qed.

Lemma fle_SF2Q (x y : float) :
  is_float x -> is_float y -> is_finite x = true -> is_finite y = true ->
  fle x y = true <-> (SF2Q x <= SF2Q y)%Q.
Proof.
  intros Hx Hy Hfx Hfy. unfold fle, SFleb.
  rewrite (SFcompare_SF2Q x y Hx Hy Hfx Hfy), Qle_alt.
  destruct (SF2Q x ?= SF2Q y)%Q; split; congruence.
Qed.

End FloatOrder.

(** ** Argument validation *)

Section Validation.

Context `{Declarations}.

Implicit Types (self : list Touchpad) (touchpad : Touchpad).

Lemma index_in_range_lookup (i : Z) self :
  0 <= i < kTouchpads self ->
  (i <? 0) || (i >=? kTouchpads self) = false /\
  exists touchpad, self !! Z.to_nat i = Some touchpad.
Proof.
  intros [Hi Hlt].
  destruct (lookup_lt_is_Some_2 self (Z.to_nat i)) as [touchpad Hlook];
    [unfold kTouchpads in Hlt; lia|].
  split; [exact (index_check_passes i self touchpad Hi Hlook) | eauto].
Qed.

Lemma index_out_of_range_check (i : Z) self :
  i < 0 \/ kTouchpads self <= i ->
  (i <? 0) || (i >=? kTouchpads self) = true.
Proof.
  intros Hout. rewrite Z.geb_leb.
  destruct (Z.ltb_spec i 0); [reflexivity|].
  destruct (Z.leb_spec (kTouchpads self) i); [reflexivity | lia].
Qed.

(** The event operations answer an index outside the array with [EINVAL],
    whatever the other arguments are, and leave the manager as it was. *)
Theorem index_out_of_range_rejected (i : Z) (x y pressure dx dy : float)
    (buttons : Z) self :
  i < 0 \/ kTouchpads self <= i ->
  Touch i x y pressure self = Some (EINVAL, self) /\
  ButtonState i buttons self = Some (EINVAL, self) /\
  Scroll i dx dy self = Some (EINVAL, self).
Proof.
  intros Hout. apply index_out_of_range_check in Hout.
  unfold Touch, ButtonState, Scroll. rewrite Hout. repeat split.
Qed.

Lemma unit_range_test (v : float) :
  is_float v ->
  flt v f_0_0 || fge v f_1_0 = true <-> outside_unit_interval v.
Proof.
  intros Hv. unfold outside_unit_interval.
  destruct v as [s|s| |s m e].
  - split; [discriminate|].
    intros [[s' Hs]|[_ [Hneg|Hge]]]; [discriminate| |];
      unfold Qlt, Qle in *; cbn in *; lia.
  - split; [eauto|]. intros _. destruct s; reflexivity.
  - split; [discriminate|]. intros [[s' Hs]|[Hfin _]]; discriminate.
  - assert (H1 : SF2Q f_1_0 == 1) by reflexivity.
    rewrite orb_true_iff. unfold fge.
    rewrite (flt_SF2Q _ f_0_0 Hv eq_refl eq_refl eq_refl).
    rewrite (fle_SF2Q f_1_0 _ eq_refl Hv eq_refl eq_refl).
    change (SF2Q f_0_0) with 0%Q. rewrite H1.
    split; [intros Hout; right; split; [reflexivity | exact Hout]|].
    intros [[s' Hs]|[_ Hout]]; [discriminate | exact Hout].
Qed.

Lemma scroll_range_test (v : float) :
  is_float v ->
  flt v f_m1_0 || fgt v f_1_0 = true <-> outside_scroll_range v.
Proof.
  intros Hv. unfold outside_scroll_range.
  destruct v as [s|s| |s m e].
  - split; [discriminate|].
    intros [[s' Hs]|[_ [Hneg|Hge]]]; [discriminate| |];
      unfold Qlt, Qle in *; cbn in *; lia.
  - split; [eauto|]. intros _. destruct s; reflexivity.
  - split; [discriminate|]. intros [[s' Hs]|[Hfin _]]; discriminate.
  - assert (H1 : SF2Q f_1_0 == 1) by reflexivity.
    assert (Hm1 : SF2Q f_m1_0 == - (1)) by reflexivity.
    rewrite orb_true_iff. unfold fgt.
    rewrite (flt_SF2Q _ f_m1_0 Hv eq_refl eq_refl eq_refl).
    rewrite (flt_SF2Q f_1_0 _ eq_refl Hv eq_refl eq_refl).
    rewrite H1, Hm1.
    split; [intros Hout; right; split; [reflexivity | exact Hout]|].
    intros [[s' Hs]|[_ Hout]]; [discriminate | exact Hout].
Qed.

(** For binary32 coordinates, the range test of [Touch] fires exactly when a
    coordinate is an infinity or denotes a number outside [[0, 1)]; a NaN
    does not make it fire.  When it fires on an in-range index, [Touch]
    returns [EINVAL] and changes nothing: the contact history is not
    advanced. *)
Theorem Touch_coordinate_range_test (i : Z) (x y pressure : float) self :
  0 <= i < kTouchpads self ->
  is_float x -> is_float y ->
  (flt x f_0_0 || fge x f_1_0 || flt y f_0_0 || fge y f_1_0 = true
     <-> outside_unit_interval x \/ outside_unit_interval y) /\
  (outside_unit_interval x \/ outside_unit_interval y ->
     Touch i x y pressure self = Some (EINVAL, self)).
Proof.
  intros Hi Hx Hy.
  assert (Htest : flt x f_0_0 || fge x f_1_0 || flt y f_0_0 || fge y f_1_0 = true
                  <-> outside_unit_interval x \/ outside_unit_interval y).
  { rewrite <- (unit_range_test x Hx), <- (unit_range_test y Hy).
    rewrite <- orb_assoc, orb_true_iff. reflexivity. }
  split; [exact Htest|]. intros Hout. apply Htest in Hout.
  unfold Touch. rewrite (proj1 (index_in_range_lookup i self Hi)), Hout.
  reflexivity.
Qed.

(** For binary32 deltas, the range test of [Scroll] fires exactly when a
    delta is an infinity or denotes a number outside [[-1, 1]]; then, on an
    in-range index, [Scroll] returns [EINVAL] and changes nothing, attached
    or not. *)
Theorem Scroll_delta_range_test (i : Z) (x y : float) self :
  0 <= i < kTouchpads self ->
  is_float x -> is_float y ->
  (flt x f_m1_0 || fgt x f_1_0 || flt y f_m1_0 || fgt y f_1_0 = true
     <-> outside_scroll_range x \/ outside_scroll_range y) /\
  (outside_scroll_range x \/ outside_scroll_range y ->
     Scroll i x y self = Some (EINVAL, self)).
Proof.
  intros Hi Hx Hy.
  assert (Htest : flt x f_m1_0 || fgt x f_1_0 || flt y f_m1_0 || fgt y f_1_0 = true
                  <-> outside_scroll_range x \/ outside_scroll_range y).
  { rewrite <- (scroll_range_test x Hx), <- (scroll_range_test y Hy).
    rewrite <- orb_assoc, orb_true_iff. reflexivity. }
  split; [exact Htest|]. intros Hout. apply Htest in Hout.
  unfold Scroll. rewrite (proj1 (index_in_range_lookup i self Hi)), Hout.
  reflexivity.
Qed.

(** A binary32 value the range test of [Touch] lets through is a NaN or a
    normalized coordinate. *)
Lemma accepted_coordinate (v : float) :
  is_float v -> flt v f_0_0 || fge v f_1_0 = false ->
  v = S754_nan \/ normalized v.
Proof.
  intros Hv Htest. destruct v as [s|s| |s m e].
  - right. repeat split.
  - destruct s; discriminate.
  - left. reflexivity.
  - right. apply orb_false_elim in Htest as [H0 H1].
    assert (Hone : SF2Q f_1_0 == 1) by reflexivity.
    split; [exact Hv|]. split.
    + apply (fle_SF2Q f_0_0 _ eq_refl Hv eq_refl eq_refl).
      apply Qnot_lt_le. intros Hlt.
      apply (flt_SF2Q _ f_0_0 Hv eq_refl eq_refl eq_refl) in Hlt. congruence.
    + apply (flt_SF2Q _ f_1_0 Hv eq_refl eq_refl eq_refl).
      apply Qnot_le_lt. intros Hle.
      apply (fle_SF2Q f_1_0 _ eq_refl Hv eq_refl eq_refl) in Hle.
      unfold fge in H1. unfold fle in Hle. congruence.
Qed.

End Validation.

(** ** What an operation changes *)

Section Frames.

Context `{Declarations}.

Implicit Types (self : list Touchpad) (touchpad : Touchpad).

(** The result of a [Touch] that returns: the manager itself, or the
    manager with the addressed touchpad updated. *)
Lemma Touch_shape (i : Z) (x y pressure : float) self status self' :
  Touch i x y pressure self = Some (status, self') ->
  self' = self \/
  exists touchpad touchpad' device_x device_y,
    0 <= i /\ self !! Z.to_nat i = Some touchpad /\
    self' = <[Z.to_nat i := touchpad']> self /\
    flt x f_0_0 || fge x f_1_0 = false /\
    flt y f_0_0 || fge y f_1_0 = false /\
    device_coordinate x kWidth = Some device_x /\
    device_coordinate y kHeight = Some device_y /\
    owned_injector touchpad' = owned_injector touchpad /\
    last_motion_event_buttons touchpad' = last_motion_event_buttons touchpad /\
    touches touchpad'
      = 2 * Z.b2z (Z.odd (touches touchpad))
        + Z.b2z (fgt pressure (float_of_int 0)) /\
    ((injector touchpad = None /\ injector touchpad' = None /\
      last_device_x touchpad' = last_device_x touchpad /\
      last_device_y touchpad' = last_device_y touchpad) \/
     (is_Some (injector touchpad) /\ is_Some (injector touchpad') /\
      last_device_x touchpad' = device_x /\
      last_device_y touchpad' = device_y)).
Proof.
  unfold Touch.
  destruct (Z.ltb_spec i 0) as [|Hi]; [intros [= _ <-]; left; reflexivity|].
  cbn [orb]. destruct (i >=? kTouchpads self); [intros [= _ <-]; left; reflexivity|].
  destruct (flt x f_0_0 || fge x f_1_0) eqn:Hx;
    [cbn [orb]; intros [= _ <-]; left; reflexivity|].
  cbn [orb].
  destruct (flt y f_0_0 || fge y f_1_0) eqn:Hy;
    [intros [= _ <-]; left; reflexivity|].
  destruct (device_coordinate x kWidth) as [device_x|]; [|discriminate].
  destruct (device_coordinate y kHeight) as [device_y|]; [|discriminate].
  cbn [mbind option_bind].
  destruct (self !! Z.to_nat i) as [touchpad|] eqn:Hlook; [|discriminate].
  cbn [mbind option_bind set_touches injector touches]. rewrite touches_advance.
  destruct (injector touchpad) as [inj|] eqn:Hinj; intros [= _ <-]; right;
    eexists touchpad, _, device_x, device_y;
    (split; [exact Hi|]); (split; [reflexivity|]); (split; [reflexivity|]);
    (split; [reflexivity|]); (split; [reflexivity|]); (split; [reflexivity|]);
    (split; [reflexivity|]); (split; [reflexivity|]); (split; [reflexivity|]);
    (split; [reflexivity|]).
  - right. rewrite Hinj. cbn. eauto 10.
  - left. rewrite Hinj. cbn. eauto.
Qed.

Lemma ButtonState_shape (i buttons : Z) self status self' :
  ButtonState i buttons self = Some (status, self') ->
  self' = self \/
  exists touchpad inj inj',
    0 <= i /\ self !! Z.to_nat i = Some touchpad /\
    injector touchpad = Some inj /\
    Z.land buttons (Z.lnot AMOTION_EVENT_BUTTON_BACK) = 0 /\
    self' = <[Z.to_nat i :=
                {| owned_injector := owned_injector touchpad;
                   injector := Some inj';
                   last_device_x := last_device_x touchpad;
                   last_device_y := last_device_y touchpad;
                   touches := touches touchpad;
                   last_motion_event_buttons := buttons |}]> self.
Proof.
  unfold ButtonState.
  destruct (Z.ltb_spec i 0) as [|Hi]; [intros [= _ <-]; left; reflexivity|].
  cbn [orb]. destruct (i >=? kTouchpads self); [intros [= _ <-]; left; reflexivity|].
  destruct (self !! Z.to_nat i) as [touchpad|] eqn:Hlook; [|discriminate].
  cbn [mbind option_bind].
  destruct (_ =? 0); [intros [= _ <-]; left; reflexivity|].
  destruct (Z.eqb_spec (Z.land buttons (Z.lnot AMOTION_EVENT_BUTTON_BACK)) 0)
    as [Hrec|_]; cbn [negb]; [|intros [= _ <-]; left; reflexivity].
  destruct (injector touchpad) as [inj|] eqn:Hinj;
    intros [= _ <-]; [|left; reflexivity].
  right. eexists touchpad, inj, _. repeat split; try assumption; try reflexivity.
Qed.

Lemma Scroll_shape (i : Z) (x y : float) self status self' :
  Scroll i x y self = Some (status, self') ->
  self' = self \/
  exists touchpad inj inj',
    0 <= i /\ self !! Z.to_nat i = Some touchpad /\
    injector touchpad = Some inj /\
    self' = <[Z.to_nat i :=
                set_injector (owned_injector touchpad) (Some inj') touchpad]>
              self.
Proof.
  unfold Scroll.
  destruct (Z.ltb_spec i 0) as [|Hi]; [intros [= _ <-]; left; reflexivity|].
  cbn [orb]. destruct (i >=? kTouchpads self); [intros [= _ <-]; left; reflexivity|].
  destruct (_ || _); [intros [= _ <-]; left; reflexivity|].
  destruct (self !! Z.to_nat i) as [touchpad|] eqn:Hlook; [|discriminate].
  cbn [mbind option_bind].
  destruct (injector touchpad) as [inj|] eqn:Hinj;
    [|intros [= _ <-]; left; reflexivity].
  destruct (scale_relative_scroll x); [|discriminate].
  destruct (scale_relative_scroll y); [|discriminate].
  cbn [mbind option_bind]. intros [= _ <-].
  right. eexists touchpad, inj, _. repeat split; try assumption; try reflexivity.
Qed.

Lemma insert_keeps {B : Type} (f : Touchpad -> B) (n : nat) self
    touchpad touchpad' :
  self !! n = Some touchpad -> f touchpad' = f touchpad ->
  f <$> <[n := touchpad']> self = f <$> self.
Proof.
  intros Hlook Hf. rewrite list_fmap_insert, Hf.
  apply list_insert_id. rewrite list_lookup_fmap, Hlook. reflexivity.
Qed.

(** No operation changes the number of touchpads, and an event operation
    changes no touchpad but the one it addresses. *)
Theorem operations_keep_other_touchpads (op : operation) self self' :
  perform op self = Some self' ->
  kTouchpads self' = kTouchpads self /\
  forall (i : Z) (j : nat),
    operation_target op = Some i -> j <> Z.to_nat i -> self' !! j = self !! j.
Proof.
  unfold kTouchpads.
  destruct op as [| | |i x y p|i b|i x y]; cbn [perform operation_target].
  - intros [= <-]. unfold Reset. rewrite length_fmap. split; [reflexivity|discriminate].
  - intros [= <-]. unfold Attach. rewrite Attach_loop_length.
    split; [reflexivity|discriminate].
  - intros [= <-]. cbn [Detach snd]. unfold Reset. rewrite length_fmap.
    split; [reflexivity|discriminate].
  - destruct (Touch i x y p self) as [[status s]|] eqn:E; [|discriminate].
    intros [= <-]. apply Touch_shape in E as [->|(t & t' & dx & dy & _ & _ & -> & _)];
      [split; [reflexivity|reflexivity]|].
    rewrite length_insert. split; [reflexivity|].
    intros i' j [= <-] Hne. apply list_lookup_insert_ne. congruence.
  - destruct (ButtonState i b self) as [[status s]|] eqn:E; [|discriminate].
    intros [= <-]. apply ButtonState_shape in E as [->|(t & inj & inj' & _ & _ & _ & _ & ->)];
      [split; [reflexivity|reflexivity]|].
    rewrite length_insert. split; [reflexivity|].
    intros i' j [= <-] Hne. apply list_lookup_insert_ne. congruence.
  - destruct (Scroll i x y self) as [[status s]|] eqn:E; [|discriminate].
    intros [= <-]. apply Scroll_shape in E as [->|(t & inj & inj' & _ & _ & _ & ->)];
      [split; [reflexivity|reflexivity]|].
    rewrite length_insert. split; [reflexivity|].
    intros i' j [= <-] Hne. apply list_lookup_insert_ne. congruence.
Qed.

Lemma emitted_same self : emitted self self = replicate (length self) [].
Proof.
  unfold emitted. induction self as [|t self IH]; [reflexivity|].
  cbn [zip_with length replicate]. rewrite drop_all, IH. reflexivity.
Qed.

Lemma emitted_cons touchpad touchpad' (before after : list Touchpad) :
  emitted (touchpad :: before) (touchpad' :: after)
    = drop (length (received_calls touchpad)) (received_calls touchpad')
      :: emitted before after.
Proof. reflexivity. Qed.

Lemma emitted_insert (n : nat) self touchpad touchpad' :
  self !! n = Some touchpad ->
  emitted self (<[n := touchpad']> self)
    = <[n := drop (length (received_calls touchpad)) (received_calls touchpad')]>
        (replicate (length self) []).
Proof.
  revert n. induction self as [|t self IH]; intros [|n] Hlook; try discriminate.
  - injection Hlook as ->.
    change (<[0%nat := touchpad']> (touchpad :: self)) with (touchpad' :: self).
    rewrite emitted_cons, emitted_same. reflexivity.
  - change (<[S n := touchpad']> (t :: self))
      with (t :: <[n := touchpad']> self).
    rewrite emitted_cons, drop_all, (IH n Hlook). reflexivity.
Qed.

Lemma injectors_kept_same self : injectors_kept self self.
Proof.
  apply Forall_Forall2_diag, Forall_forall. intros t _. split; reflexivity.
Qed.

Lemma injectors_kept_insert (n : nat) self touchpad touchpad' :
  self !! n = Some touchpad ->
  has_injector touchpad' = has_injector touchpad ->
  received_calls touchpad `prefix_of` received_calls touchpad' ->
  injectors_kept self (<[n := touchpad']> self).
Proof.
  intros Hlook Hhas Hlog. unfold injectors_kept.
  rewrite <- (list_insert_id self n touchpad Hlook) at 1.
  apply Forall2_insert; [apply injectors_kept_same|]. split; assumption.
Qed.

(** The calls of the [switch] of [Touch] depend on the contact history and
    on the positions, not on the injector they go to. *)
Lemma Touch_emit_appends (history device_x device_y last_x last_y : Z) :
  exists calls, forall touchpad inj,
    last_device_x touchpad = last_x -> last_device_y touchpad = last_y ->
    received (Touch_emit history device_x device_y touchpad inj)
      = received inj ++ calls.
Proof.
  pose (moved := negb (device_x =? last_x) || negb (device_y =? last_y)).
  exists (match history with
          | 0 | 3 =>
              if moved
              then [SendMultiTouchXY 0 0 device_x device_y; SendSynReport]
              else []
          | 1 => [SendMultiTouchXY 0 0 device_x device_y;
                  SendKey BTN_TOUCH KEY_PRESS; SendSynReport]
          | 2 => [SendKey BTN_TOUCH KEY_RELEASE; SendMultiTouchLift 0;
                  SendSynReport]
          | _ => []
          end).
  intros touchpad inj <- <-. unfold Touch_emit. subst moved.
  destruct history as [|[[p|p|]|[p|p|]|]|p];
    try destruct (negb _ || negb _);
    rewrite ?received_invoke, <- ?app_assoc, ?app_nil_r; reflexivity.
Qed.

Lemma lookup_view {B : Type} (f : Touchpad -> B) (n : nat) self self1
    touchpad touchpad1 :
  f <$> self1 = f <$> self ->
  self !! n = Some touchpad -> self1 !! n = Some touchpad1 ->
  f touchpad1 = f touchpad.
Proof.
  intros Hview Hlook Hlook1. apply (f_equal (fun l => l !! n)) in Hview.
  rewrite !list_lookup_fmap, Hlook, Hlook1 in Hview.
  injection Hview as Hview. exact Hview.
Qed.

Lemma view_length {B : Type} (f : Touchpad -> B) self self1 :
  f <$> self1 = f <$> self -> length self1 = length self.
Proof.
  intros Hview. apply (f_equal length) in Hview.
  rewrite !length_fmap in Hview. exact Hview.
Qed.

(** The effect of a [Touch] is a function of what it reads: on two managers
    with the same last positions, contact histories and attachment it makes
    the same calls and leaves the same. *)
Lemma Touch_effect_view (j : Z) (x y pressure : float) self self1 :
  touch_view <$> self1 = touch_view <$> self ->
  Touch_effect j x y pressure self1 = Touch_effect j x y pressure self.
Proof.
  intros Hview. pose proof (view_length _ _ _ Hview) as Hlen.
  unfold Touch_effect, Touch, kTouchpads. rewrite Hlen.
  destruct ((j <? 0) || (j >=? Z.of_nat (length self))) eqn:Hidx.
  { cbn. rewrite !emitted_same, Hlen, Hview. reflexivity. }
  destruct (flt x f_0_0 || fge x f_1_0 || flt y f_0_0 || fge y f_1_0).
  { cbn. rewrite !emitted_same, Hlen, Hview. reflexivity. }
  destruct (device_coordinate x kWidth) as [device_x|]; [|reflexivity].
  destruct (device_coordinate y kHeight) as [device_y|]; [|reflexivity].
  cbn [mbind option_bind].
  assert (Hrange : 0 <= j < Z.of_nat (length self)).
  { rewrite Z.geb_leb in Hidx. apply orb_false_elim in Hidx as [H0 Hn].
    apply Z.ltb_ge in H0. apply Z.leb_gt in Hn. split; assumption. }
  destruct (lookup_lt_is_Some_2 self (Z.to_nat j) ltac:(lia)) as [t Hlook].
  destruct (lookup_lt_is_Some_2 self1 (Z.to_nat j) ltac:(lia)) as [t1 Hlook1].
  pose proof (lookup_view _ _ _ _ _ _ Hview Hlook Hlook1) as Ht.
  unfold touch_view, touch_state, has_injector in Ht.
  rewrite Hlook, Hlook1. cbn [mbind option_bind set_touches injector touches].
  injection Ht as Hlx Hly Htouches Hhas. rewrite Htouches.
  set (history := Z.lor _ _).
  destruct (injector t) as [inj|] eqn:Hinj,
           (injector t1) as [inj1|] eqn:Hinj1; try discriminate.
  - destruct (Touch_emit_appends history device_x device_y
                (last_device_x t) (last_device_y t)) as [calls Hcalls].
    cbn [mbind option_bind snd]. f_equal. f_equal.
    + rewrite (emitted_insert _ _ t1), (emitted_insert _ _ t) by assumption.
      rewrite Hlen. f_equal.
      unfold received_calls. cbn [injector set_last_device set_injector].
      rewrite Hinj, Hinj1.
      rewrite (Hcalls (set_touches history t) _ eq_refl eq_refl).
      rewrite (Hcalls (set_touches history t1) _ Hlx Hly).
      rewrite !received_invoke, <- !app_assoc, !drop_app_length. reflexivity.
    + rewrite !list_fmap_insert, Hview. reflexivity.
  - cbn [mbind option_bind snd]. f_equal. f_equal.
    + rewrite (emitted_insert _ _ t1), (emitted_insert _ _ t) by assumption.
      rewrite Hlen. f_equal.
      unfold received_calls. cbn [injector set_touches].
      rewrite Hinj, Hinj1. reflexivity.
    + rewrite !list_fmap_insert, Hview. f_equal.
      unfold touch_view, touch_state, has_injector. cbn.
      rewrite Hinj, Hinj1, Hlx, Hly. reflexivity.
Qed.

(** The effect of a [ButtonState] is a function of what it reads. *)
Lemma ButtonState_effect_view (j buttons : Z) self self1 :
  button_view <$> self1 = button_view <$> self ->
  ButtonState_effect j buttons self1 = ButtonState_effect j buttons self.
Proof.
  intros Hview. pose proof (view_length _ _ _ Hview) as Hlen.
  unfold ButtonState_effect, ButtonState, kTouchpads. rewrite Hlen.
  destruct ((j <? 0) || (j >=? Z.of_nat (length self))) eqn:Hidx.
  { cbn. rewrite !emitted_same, Hlen, Hview. reflexivity. }
  assert (Hrange : 0 <= j < Z.of_nat (length self)).
  { rewrite Z.geb_leb in Hidx. apply orb_false_elim in Hidx as [H0 Hn].
    apply Z.ltb_ge in H0. apply Z.leb_gt in Hn. split; assumption. }
  destruct (lookup_lt_is_Some_2 self (Z.to_nat j) ltac:(lia)) as [t Hlook].
  destruct (lookup_lt_is_Some_2 self1 (Z.to_nat j) ltac:(lia)) as [t1 Hlook1].
  pose proof (lookup_view _ _ _ _ _ _ Hview Hlook Hlook1) as Ht.
  unfold button_view, has_injector in Ht.
  rewrite Hlook, Hlook1. cbn [mbind option_bind].
  injection Ht as Hbuttons Hhas. rewrite Hbuttons.
  destruct (_ =? 0).
  { cbn. rewrite !emitted_same, Hlen, Hview. reflexivity. }
  destruct (negb (Z.land buttons _ =? 0)).
  { cbn. rewrite !emitted_same, Hlen, Hview. reflexivity. }
  destruct (injector t) as [inj|] eqn:Hinj,
           (injector t1) as [inj1|] eqn:Hinj1; try discriminate.
  - cbn [mbind option_bind snd]. f_equal. f_equal.
    + rewrite (emitted_insert _ _ t1), (emitted_insert _ _ t) by assumption.
      rewrite Hlen. f_equal.
      unfold received_calls.
      cbn [injector set_injector set_last_motion_event_buttons].
      rewrite Hinj, Hinj1.
      destruct (negb _);
        rewrite !received_invoke, <- ?app_assoc, !drop_app_length; reflexivity.
    + rewrite !list_fmap_insert, Hview. reflexivity.
  - cbn. rewrite !emitted_same, Hlen, Hview. reflexivity.
Qed.

Lemma Scroll_injectors_kept (i : Z) (x y : float) self status self' :
  Scroll i x y self = Some (status, self') -> injectors_kept self self'.
Proof.
  unfold Scroll.
  destruct ((i <? 0) || (i >=? kTouchpads self));
    [intros [= _ <-]; apply injectors_kept_same|].
  destruct (_ || _); [intros [= _ <-]; apply injectors_kept_same|].
  destruct (self !! Z.to_nat i) as [touchpad|] eqn:Hlook; [|discriminate].
  cbn [mbind option_bind].
  destruct (injector touchpad) as [inj|] eqn:Hinj;
    [|intros [= _ <-]; apply injectors_kept_same].
  destruct (scale_relative_scroll x) as [scaled_x|]; [|discriminate].
  destruct (scale_relative_scroll y) as [scaled_y|]; [|discriminate].
  cbn [mbind option_bind]. intros [= _ <-].
  apply (injectors_kept_insert _ _ touchpad _ Hlook);
    unfold has_injector, received_calls; cbn [injector set_injector];
    rewrite Hinj; [reflexivity|].
  destruct (negb (scaled_x =? 0)), (negb (scaled_y =? 0)); cbn [orb];
    rewrite ?received_invoke, <- ?app_assoc; eexists; reflexivity.
Qed.

Lemma ButtonState_injectors_kept (i buttons : Z) self status self' :
  ButtonState i buttons self = Some (status, self') -> injectors_kept self self'.
Proof.
  unfold ButtonState.
  destruct ((i <? 0) || (i >=? kTouchpads self));
    [intros [= _ <-]; apply injectors_kept_same|].
  destruct (self !! Z.to_nat i) as [touchpad|] eqn:Hlook; [|discriminate].
  cbn [mbind option_bind].
  destruct (_ =? 0); [intros [= _ <-]; apply injectors_kept_same|].
  destruct (negb _); [intros [= _ <-]; apply injectors_kept_same|].
  destruct (injector touchpad) as [inj|] eqn:Hinj;
    intros [= _ <-]; [|apply injectors_kept_same].
  apply (injectors_kept_insert _ _ touchpad _ Hlook);
    unfold has_injector, received_calls;
    cbn [injector set_injector set_last_motion_event_buttons];
    rewrite Hinj; [reflexivity|].
  destruct (negb _);
    rewrite ?received_invoke, <- ?app_assoc; eexists; reflexivity.
Qed.

Lemma Touch_injectors_kept (i : Z) (x y pressure : float) self status self' :
  Touch i x y pressure self = Some (status, self') -> injectors_kept self self'.
Proof.
  unfold Touch.
  destruct ((i <? 0) || (i >=? kTouchpads self));
    [intros [= _ <-]; apply injectors_kept_same|].
  destruct (_ || _); [intros [= _ <-]; apply injectors_kept_same|].
  destruct (device_coordinate x kWidth) as [device_x|]; [|discriminate].
  destruct (device_coordinate y kHeight) as [device_y|]; [|discriminate].
  cbn [mbind option_bind].
  destruct (self !! Z.to_nat i) as [touchpad|] eqn:Hlook; [|discriminate].
  cbn [mbind option_bind set_touches injector touches].
  set (history := Z.lor _ _).
  destruct (injector touchpad) as [inj|] eqn:Hinj; intros [= _ <-];
    apply (injectors_kept_insert _ _ touchpad _ Hlook);
    unfold has_injector, received_calls;
    cbn [injector set_injector set_last_device set_touches]; rewrite Hinj;
    try reflexivity.
  destruct (Touch_emit_appends history device_x device_y
              (last_device_x touchpad) (last_device_y touchpad))
    as [calls Hcalls].
  rewrite (Hcalls (set_touches history touchpad) _ eq_refl eq_refl),
    received_invoke, <- app_assoc.
  eexists; reflexivity.
Qed.

(** [Scroll] changes nothing but the injector of a touchpad, which stays the
    same injector and receives further calls; [ButtonState] leaves last
    position and contact history of every touchpad as they were, and the
    injectors in place; and [Touch] leaves the button masks and the
    injectors in place.  So a [Touch] that follows a [Scroll] or a
    [ButtonState] makes the calls, and leaves the last positions, contact
    histories and attachment, that it would have without it (and has no
    defined result exactly if it had none without it); and likewise a
    [ButtonState] that follows a [Scroll] or a [Touch].  The touch state
    machine and the button tracking do not interfere, and a scroll
    interferes with neither. *)
Theorem event_operations_separate_fields (i : Z) (x y pressure dx dy : float)
    (buttons : Z) self :
  (forall status self',
      Scroll i dx dy self = Some (status, self') ->
      (touch_state <$> self' = touch_state <$> self /\
       last_motion_event_buttons <$> self' = last_motion_event_buttons <$> self /\
       owned_injector <$> self' = owned_injector <$> self) /\
      injectors_kept self self' /\
      (forall (j : Z) (x' y' pressure' : float),
          Touch_effect j x' y' pressure' self'
            = Touch_effect j x' y' pressure' self) /\
      (forall j buttons' : Z,
          ButtonState_effect j buttons' self'
            = ButtonState_effect j buttons' self)) /\
  (forall status self',
      ButtonState i buttons self = Some (status, self') ->
      (touch_state <$> self' = touch_state <$> self /\
       owned_injector <$> self' = owned_injector <$> self) /\
      injectors_kept self self' /\
      (forall (j : Z) (x' y' pressure' : float),
          Touch_effect j x' y' pressure' self'
            = Touch_effect j x' y' pressure' self)) /\
  (forall status self',
      Touch i x y pressure self = Some (status, self') ->
      (last_motion_event_buttons <$> self' = last_motion_event_buttons <$> self /\
       owned_injector <$> self' = owned_injector <$> self) /\
      injectors_kept self self' /\
      (forall j buttons' : Z,
          ButtonState_effect j buttons' self'
            = ButtonState_effect j buttons' self)).
Proof.
  split; [|split]; intros status self' E.
  - pose proof (Scroll_injectors_kept _ _ _ _ _ _ E) as Hkept.
    assert (Hview : touch_view <$> self' = touch_view <$> self
                    /\ button_view <$> self' = button_view <$> self).
    { apply Scroll_shape in E as [->|(t & inj & inj' & _ & Hlook & Hinj & ->)];
        [split; reflexivity|].
      split; (apply (insert_keeps _ _ _ t); [exact Hlook|]);
        unfold touch_view, button_view, has_injector; cbn;
        rewrite Hinj; reflexivity. }
    split; [|split; [exact Hkept|split]].
    + apply Scroll_shape in E as [->|(t & inj & inj' & _ & Hlook & _ & ->)];
        [repeat split|].
      repeat split; apply (insert_keeps _ _ _ t); auto.
    + intros j x' y' pressure'. apply Touch_effect_view, Hview.
    + intros j buttons'. apply ButtonState_effect_view, Hview.
  - pose proof (ButtonState_injectors_kept _ _ _ _ _ E) as Hkept.
    assert (Hview : touch_view <$> self' = touch_view <$> self).
    { apply ButtonState_shape in E
        as [->|(t & inj & inj' & _ & Hlook & Hinj & _ & ->)]; [reflexivity|].
      apply (insert_keeps _ _ _ t); [exact Hlook|].
      unfold touch_view, has_injector. cbn. rewrite Hinj. reflexivity. }
    split; [|split; [exact Hkept|]].
    + apply ButtonState_shape in E
        as [->|(t & inj & inj' & _ & Hlook & _ & _ & ->)]; [repeat split|].
      repeat split; apply (insert_keeps _ _ _ t); auto.
    + intros j x' y' pressure'. apply Touch_effect_view, Hview.
  - pose proof (Touch_injectors_kept _ _ _ _ _ _ _ E) as Hkept.
    apply Touch_shape in E
      as [->|(t & t' & ddx & ddy & _ & Hlook & -> & _ & _ & _ & _ & Ho & Hb & _
              & Hinj)];
      [repeat split; exact Hkept|].
    split; [split; apply (insert_keeps _ _ _ t); auto|].
    split; [exact Hkept|].
    intros j buttons'. apply ButtonState_effect_view.
    apply (insert_keeps _ _ _ t); [exact Hlook|].
    unfold button_view, has_injector. rewrite Hb.
    destruct Hinj as [(-> & -> & _)|([inj ->] & [inj' ->] & _)]; reflexivity.
Qed.

End Frames.

(** ** Invariants of the touch state *)

Section TouchInvariants.

Context `{Declarations}.

Implicit Types (self : list Touchpad) (touchpad : Touchpad).

Lemma perform_kTouchpads (op : operation) self self' :
  perform op self = Some self' -> length self' = length self.
Proof.
  destruct op as [| | |i x y p|i b|i x y]; cbn [perform].
  - intros [= <-]. apply length_fmap.
  - intros [= <-]. apply Attach_loop_length.
  - intros [= <-]. apply length_fmap.
  - destruct (Touch i x y p self) as [[status s]|] eqn:E; [|discriminate].
    intros [= <-]. apply Touch_shape in E as [->|(t & t' & dx & dy & _ & _ & -> & _)];
      [reflexivity | apply length_insert].
  - destruct (ButtonState i b self) as [[status s]|] eqn:E; [|discriminate].
    intros [= <-].
    apply ButtonState_shape in E as [->|(t & inj & inj' & _ & _ & _ & _ & ->)];
      [reflexivity | apply length_insert].
  - destruct (Scroll i x y self) as [[status s]|] eqn:E; [|discriminate].
    intros [= <-].
    apply Scroll_shape in E as [->|(t & inj & inj' & _ & _ & _ & ->)];
      [reflexivity | apply length_insert].
Qed.

(** A property of the fields [Attach] does not assign survives [Attach]. *)
Lemma Attach_Forall (P : Touchpad -> Prop) self :
  (forall t t', touch_state t' = touch_state t ->
                last_motion_event_buttons t' = last_motion_event_buttons t ->
                P t -> P t') ->
  Forall P self -> Forall P (snd (Attach self)).
Proof.
  intros HP. unfold Attach. rewrite !Forall_lookup.
  intros Hall n touchpad' Hn.
  assert (Hlt : (n < length self)%nat).
  { rewrite <- (Attach_loop_length 0 self OK). eapply lookup_lt_Some, Hn. }
  destruct (lookup_lt_is_Some_2 self n Hlt) as [touchpad Hlook].
  rewrite (Attach_loop_lookup 0 self OK n touchpad Hlook) in Hn.
  injection Hn as <-. apply (HP touchpad); [reflexivity..|].
  exact (Hall n touchpad Hlook).
Qed.

Lemma Reset_Forall (P : Touchpad -> Prop) self :
  P detached_touchpad -> Forall P (Reset self).
Proof. intros HP. unfold Reset. apply Forall_fmap, Forall_true. intros t. exact HP. Qed.

Lemma history_bounds (previous current : bool) :
  0 <= 2 * Z.b2z previous + Z.b2z current <= 3.
Proof. destruct previous, current; cbn; lia. Qed.

Lemma perform_history_in_range (op : operation) self self' :
  Forall (fun t => 0 <= touches t <= 3) self ->
  perform op self = Some self' ->
  Forall (fun t => 0 <= touches t <= 3) self'.
Proof.
  intros Hinv. destruct op as [| | |i x y p|i b|i x y]; cbn [perform].
  - intros [= <-]. apply Reset_Forall. cbn. lia.
  - intros [= <-]. apply Attach_Forall; [|exact Hinv].
    intros t t' [= _ _ ->] _. auto.
  - intros [= <-]. apply Reset_Forall. cbn. lia.
  - destruct (Touch i x y p self) as [[status s]|] eqn:E; [|discriminate].
    intros [= <-].
    apply Touch_shape in E
      as [->|(t & t' & dx & dy & _ & _ & -> & _ & _ & _ & _ & _ & _ & Ht & _)];
      [exact Hinv|].
    apply Forall_insert; [exact Hinv|]. rewrite Ht. apply history_bounds.
  - destruct (ButtonState i b self) as [[status s]|] eqn:E; [|discriminate].
    intros [= <-].
    apply ButtonState_shape in E as [->|(t & inj & inj' & _ & Hlook & _ & _ & ->)];
      [exact Hinv|].
    apply Forall_insert; [exact Hinv|].
    exact (proj1 (Forall_lookup _ _) Hinv _ t Hlook).
  - destruct (Scroll i x y self) as [[status s]|] eqn:E; [|discriminate].
    intros [= <-].
    apply Scroll_shape in E as [->|(t & inj & inj' & _ & Hlook & _ & ->)];
      [exact Hinv|].
    apply Forall_insert; [exact Hinv|].
    exact (proj1 (Forall_lookup _ _) Hinv _ t Hlook).
Qed.

(** In every state the manager can be in, the number of touchpads is the
    one it was created with and every contact history is one of 0, 1, 2, 3,
    the four cases of the [switch] in [Touch]. *)
Theorem reachable_history_in_range (n : nat) self :
  reachable n self ->
  kTouchpads self = Z.of_nat n /\
  Forall (fun t => 0 <= touches t <= 3) self.
Proof.
  unfold kTouchpads. induction 1 as [|op self self' _ [IHlen IH] Hop].
  - split.
    + unfold Create, Reset. rewrite length_fmap, length_replicate. reflexivity.
    + apply Reset_Forall. cbn. lia.
  - split.
    + rewrite (perform_kTouchpads op self self' Hop). exact IHlen.
    + eapply perform_history_in_range; eassumption.
Qed.

Lemma device_coordinate_accepted (v : float) (extent d : Z) :
  extent = 0x10000 ->
  is_float v -> flt v f_0_0 || fge v f_1_0 = false ->
  device_coordinate v extent = Some d -> 0 <= d <= extent - 1.
Proof.
  intros -> Hv Htest Hd.
  destruct (accepted_coordinate v Hv Htest) as [->|(_ & H0 & H1)].
  - discriminate Hd.
  - destruct (device_coordinate_exact v Hv H0 H1) as [Heq Hbound].
    rewrite Heq in Hd. injection Hd as <-. exact Hbound.
Qed.

End TouchInvariants.

(** ** Attach and Detach *)

Section Lifecycle.

Context `{Declarations}.

Implicit Types (self : list Touchpad) (touchpad : Touchpad).

Lemma Reset_replicate self :
  Reset self = replicate (length self) detached_touchpad.
Proof. unfold Reset. apply const_fmap. reflexivity. Qed.

(** [Detach] returns [OK] and puts the manager in the state [Create] gives
    for the same number of touchpads: no injector, unset position, contact
    history and button mask zero, whatever the state was. *)
Theorem Detach_restores_created_state self :
  Detach self = (OK, Create (length self)) /\
  Create (length self) = replicate (length self) detached_touchpad.
Proof.
  assert (HC : Create (length self) = replicate (length self) detached_touchpad).
  { unfold Create. rewrite Reset_replicate, length_replicate. reflexivity. }
  split; [|exact HC]. unfold Detach. rewrite HC, Reset_replicate. reflexivity.
Qed.

(** After [Detach] the event operations on an in-range index, with
    arguments in range, return the sequencing error: [Touch] (which starts
    the contact history afresh from the new sample), [Scroll], and
    [ButtonState] with a recognized non-zero mask; [ButtonState] with mask 0
    returns 0, the mask being the stored one. *)
Theorem Detach_then_event_operations (i : Z) (x y pressure dx dy : float)
    (buttons : Z) self :
  0 <= i < kTouchpads self ->
  normalized x -> normalized y ->
  scroll_delta dx -> scroll_delta dy ->
  Z.land buttons (Z.lnot AMOTION_EVENT_BUTTON_BACK) = 0 -> buttons <> 0 ->
  let self0 := snd (Detach self) in
  Touch i x y pressure self0
    = Some (ERROR_SEQUENCING,
            <[Z.to_nat i :=
                set_touches (Z.b2z (fgt pressure (float_of_int 0)))
                  detached_touchpad]> self0) /\
  Scroll i dx dy self0 = Some (ERROR_SEQUENCING, self0) /\
  ButtonState i buttons self0 = Some (ERROR_SEQUENCING, self0) /\
  ButtonState i 0 self0 = Some (0, self0).
Proof.
  intros [Hi Hlt] Hx Hy Hdx Hdy Hrec Hnz. cbv zeta. cbn [Detach snd].
  rewrite Reset_replicate. set (self0 := replicate (length self) detached_touchpad).
  assert (Hlook : self0 !! Z.to_nat i = Some detached_touchpad).
  { apply lookup_replicate_2. unfold kTouchpads in Hlt. lia. }
  pose proof (index_check_passes i self0 _ Hi Hlook) as Hidx.
  split; [|split; [|split]].
  - rewrite (Touch_validated i x y pressure self0 _ Hi Hlook Hx Hy). reflexivity.
  - unfold Scroll. rewrite Hidx.
    apply scroll_delta_accepted, orb_false_elim in Hdx as [-> ->].
    apply scroll_delta_accepted, orb_false_elim in Hdy as [-> ->].
    cbn [orb]. rewrite Hlook. reflexivity.
  - unfold ButtonState. rewrite Hidx, Hlook. cbn [mbind option_bind].
    cbn [detached_touchpad last_motion_event_buttons injector].
    rewrite Z.lxor_0_l. destruct (Z.eqb_spec buttons 0); [contradiction|].
    rewrite Hrec. reflexivity.
  - unfold ButtonState. rewrite Hidx, Hlook. reflexivity.
Qed.

Lemma Attach_loop_status_cons (k : Z) touchpad (rest : list Touchpad) (status : Z) :
  fst (Attach_loop k (touchpad :: rest) status)
  = fst (Attach_loop (k + 1) rest
           (if configuration_error k touchpad =? 0 then status
            else configuration_error k touchpad)).
Proof.
  cbn [Attach_loop]. unfold configuration_error.
  destruct (injector touchpad); cbv beta iota zeta; cbn [default id];
    destruct (Attach_loop (k + 1) rest _); reflexivity.
Qed.

Lemma Attach_loop_status_clean (k : Z) (rest : list Touchpad) (status : Z) :
  (forall (n : nat) t, rest !! n = Some t ->
     configuration_error (k + Z.of_nat n) t = 0) ->
  fst (Attach_loop k rest status) = status.
Proof.
  revert k. induction rest as [|t rest IH]; intros k Hclean; [reflexivity|].
  rewrite Attach_loop_status_cons.
  pose proof (Hclean 0%nat t eq_refl) as H0. rewrite Z.add_0_r in H0.
  rewrite H0. cbn [Z.eqb]. apply IH. intros n t' Hn.
  replace (k + 1 + Z.of_nat n) with (k + Z.of_nat (S n)) by lia.
  apply Hclean. exact Hn.
Qed.

Lemma Attach_loop_status_last (k : Z) (before after : list Touchpad) touchpad
    (status : Z) :
  configuration_error (k + Z.of_nat (length before)) touchpad <> 0 ->
  (forall (n : nat) t, after !! n = Some t ->
     configuration_error (k + Z.of_nat (length before) + 1 + Z.of_nat n) t = 0) ->
  fst (Attach_loop k (before ++ touchpad :: after) status)
  = configuration_error (k + Z.of_nat (length before)) touchpad.
Proof.
  revert k status. induction before as [|b before IH]; intros k status Herr Hclean.
  - cbn [app length Z.of_nat] in *. rewrite Z.add_0_r in *.
    rewrite Attach_loop_status_cons.
    destruct (Z.eqb_spec (configuration_error k touchpad) 0); [contradiction|].
    apply Attach_loop_status_clean. exact Hclean.
  - cbn [app]. rewrite Attach_loop_status_cons.
    replace (k + Z.of_nat (length (b :: before)))
      with (k + 1 + Z.of_nat (length before)) in * by (cbn [length]; lia).
    apply IH; assumption.
Qed.

(** The status of [Attach]: [OK] when no injector reports an error after
    its configuration; otherwise the error of the last touchpad whose
    injector reports one, also when an earlier touchpad reported another. *)
Theorem Attach_status self :
  ((forall (n : nat) t, self !! n = Some t ->
      configuration_error (Z.of_nat n) t = 0) ->
   fst (Attach self) = OK) /\
  (forall before touchpad after,
      self = before ++ touchpad :: after ->
      configuration_error (Z.of_nat (length before)) touchpad <> 0 ->
      (forall (n : nat) t, after !! n = Some t ->
         configuration_error (Z.of_nat (length before) + 1 + Z.of_nat n) t = 0) ->
      fst (Attach self)
      = configuration_error (Z.of_nat (length before)) touchpad).
Proof.
  split.
  - intros Hclean. apply Attach_loop_status_clean. exact Hclean.
  - intros before touchpad after -> Herr Hclean.
    apply (Attach_loop_status_last 0); assumption.
Qed.

End Lifecycle.

(** ** Sequences of event operations *)

Section Sequences.

Context `{Declarations}.

Implicit Types (self : list Touchpad) (touchpad : Touchpad) (inj : EvdevInjector).

Lemma odd_history (previous current : bool) :
  Z.odd (2 * Z.b2z previous + Z.b2z current) = current.
Proof. destruct previous, current; reflexivity. Qed.

Lemma lookup_insert_same (n : nat) self touchpad touchpad' :
  self !! n = Some touchpad -> <[n := touchpad']> self !! n = Some touchpad'.
Proof. intros Hlook. apply list_lookup_insert_eq. eapply lookup_lt_Some, Hlook. Qed.

Lemma index_in_insert (i : Z) (n : nat) self touchpad' :
  0 <= i < kTouchpads self -> 0 <= i < kTouchpads (<[n := touchpad']> self).
Proof. unfold kTouchpads. rewrite length_insert. auto. Qed.

Lemma Touch_emit_sustained (current : bool) (device_x device_y : Z)
    touchpad inj :
  last_device_x touchpad = device_x -> last_device_y touchpad = device_y ->
  Touch_emit (2 * Z.b2z current + Z.b2z current) device_x device_y touchpad inj
  = inj.
Proof.
  intros <- <-.
  destruct current;
    [change (2 * Z.b2z true + Z.b2z true) with 3
    |change (2 * Z.b2z false + Z.b2z false) with 0];
    unfold Touch_emit; rewrite !Z.eqb_refl; reflexivity.
Qed.

(** A second [Touch] with the arguments of the first, on an attached
    touchpad, makes no call on the injector but [ResetError]: no position,
    no key, no barrier; it leaves the position stored by the first. *)
Theorem Touch_repeated_emits_nothing (i : Z) (x y pressure : float)
    self touchpad inj :
  0 <= i < kTouchpads self ->
  self !! Z.to_nat i = Some touchpad ->
  injector touchpad = Some inj ->
  normalized x -> normalized y ->
  exists status1 self1 touchpad1 inj1,
    Touch i x y pressure self = Some (status1, self1) /\
    self1 !! Z.to_nat i = Some touchpad1 /\
    injector touchpad1 = Some inj1 /\
    exists touchpad2,
      Touch i x y pressure self1
        = Some (GetError (inj1 ~> ResetError),
                <[Z.to_nat i := touchpad2]> self1) /\
      injector touchpad2 = Some (inj1 ~> ResetError) /\
      touch_state touchpad2
        = (device_space x kWidth, device_space y kHeight,
           3 * Z.b2z (fgt pressure (float_of_int 0))).
Proof.
  intros [Hi Hlt] Hlook Hinj Hx Hy.
  rewrite (Touch_validated i x y pressure self touchpad Hi Hlook Hx Hy), Hinj.
  cbv zeta. eexists _, _, _, _. split; [reflexivity|].
  split; [apply (lookup_insert_same _ _ touchpad), Hlook|].
  split; [reflexivity|].
  erewrite Touch_validated;
    [|exact Hi|apply (lookup_insert_same _ _ touchpad), Hlook|exact Hx|exact Hy].
  cbn [injector touches last_device_x last_device_y owned_injector
       last_motion_event_buttons].
  rewrite odd_history, Touch_emit_sustained by reflexivity.
  eexists. split; [reflexivity|]. split; [reflexivity|].
  unfold touch_state. cbn [last_device_x last_device_y touches].
  destruct (fgt pressure (float_of_int 0)); reflexivity.
Qed.

(** After two validated [Touch] calls on a touchpad, attached or not, its
    contact history holds the contact of the first call in bit 1 and that
    of the second in bit 0, whatever it held before. *)
Theorem Touch_history_two_samples (i : Z) (x1 y1 p1 x2 y2 p2 : float)
    self touchpad :
  0 <= i < kTouchpads self ->
  self !! Z.to_nat i = Some touchpad ->
  normalized x1 -> normalized y1 -> normalized x2 -> normalized y2 ->
  exists status1 self1 status2 self2 touchpad2,
    Touch i x1 y1 p1 self = Some (status1, self1) /\
    Touch i x2 y2 p2 self1 = Some (status2, self2) /\
    self2 !! Z.to_nat i = Some touchpad2 /\
    touches touchpad2
      = 2 * Z.b2z (fgt p1 (float_of_int 0)) + Z.b2z (fgt p2 (float_of_int 0)).
Proof.
  intros [Hi Hlt] Hlook Hx1 Hy1 Hx2 Hy2.
  rewrite (Touch_validated i x1 y1 p1 self touchpad Hi Hlook Hx1 Hy1). cbv zeta.
  destruct (injector touchpad) as [inj|] eqn:Hinj.
  - eexists _, _, _, _, _. split; [reflexivity|].
    erewrite Touch_validated;
      [|exact Hi|apply (lookup_insert_same _ _ touchpad), Hlook|exact Hx2|exact Hy2].
    cbv zeta. cbn [injector touches]. rewrite odd_history.
    split; [reflexivity|].
    split; [eapply lookup_insert_same, (lookup_insert_same _ _ touchpad), Hlook|].
    reflexivity.
  - eexists _, _, _, _, _. split; [reflexivity|].
    erewrite Touch_validated;
      [|exact Hi|apply (lookup_insert_same _ _ touchpad), Hlook|exact Hx2|exact Hy2].
    cbv zeta. cbn [injector touches set_touches]. rewrite Hinj, odd_history.
    split; [reflexivity|].
    split; [eapply lookup_insert_same, (lookup_insert_same _ _ touchpad), Hlook|].
    reflexivity.
Qed.

(** A press made while the touchpad has no injector is never reported: the
    [Touch] returns the sequencing error but records the contact, [Attach]
    keeps the record, and the next [Touch] with contact is taken as a
    sustained contact, so that it sends a position and a barrier at most and
    no press of [BTN_TOUCH]. *)
Theorem press_while_detached_is_lost (i : Z) (x y p x' y' p' : float)
    self touchpad :
  0 <= i < kTouchpads self ->
  self !! Z.to_nat i = Some touchpad ->
  injector touchpad = None ->
  normalized x -> normalized y -> normalized x' -> normalized y' ->
  fgt p (float_of_int 0) = true -> fgt p' (float_of_int 0) = true ->
  let device_x := device_space x' kWidth in
  let device_y := device_space y' kHeight in
  let unchanged :=
    (device_x =? last_device_x touchpad) && (device_y =? last_device_y touchpad) in
  exists self1 self2 touchpad2 inj2,
    Touch i x y p self = Some (ERROR_SEQUENCING, self1) /\
    snd (Attach self1) = self2 /\
    Touch i x' y' p' self2
      = Some (GetError inj2, <[Z.to_nat i := touchpad2]> self2) /\
    injector touchpad2 = Some inj2 /\
    touches touchpad2 = 3 /\
    received inj2
      = received (Attach_configure i new_EvdevInjector) ++ ResetError ::
        (if unchanged then []
         else [SendMultiTouchXY 0 0 device_x device_y; SendSynReport]).
Proof.
  intros [Hi Hlt] Hlook Hinj Hx Hy Hx' Hy' Hp Hp'. cbv zeta.
  rewrite (Touch_validated i x y p self touchpad Hi Hlook Hx Hy), Hinj, Hp.
  cbv zeta. eexists _, _, _, _. split; [reflexivity|]. split; [reflexivity|].
  set (touchpad1 := set_touches _ touchpad).
  assert (Hlook1 : <[Z.to_nat i := touchpad1]> self !! Z.to_nat i = Some touchpad1)
    by (apply (lookup_insert_same _ _ touchpad), Hlook).
  pose proof (Attach_loop_lookup 0 _ OK _ _ Hlook1) as Hlook2.
  fold (Attach (<[Z.to_nat i := touchpad1]> self)) in Hlook2.
  rewrite Z.add_0_l, Z2Nat.id in Hlook2 by exact Hi.
  rewrite (Touch_validated i x' y' p' _ _ Hi Hlook2 Hx' Hy'), Hp'.
  subst touchpad1. cbn [injector set_touches touches last_device_x last_device_y
                        owned_injector last_motion_event_buttons default id].
  rewrite Hinj. cbn [default]. rewrite odd_history. cbn [Z.b2z].
  change (2 * 1 + 1) with 3. unfold Touch_emit.
  cbn [last_device_x last_device_y].
  split; [reflexivity|]. split; [reflexivity|]. split; [reflexivity|].
  destruct (_ =? last_device_x touchpad), (_ =? last_device_y touchpad);
    cbn [negb orb andb]; rewrite ?received_invoke, <- ?app_assoc; reflexivity.
Qed.

Lemma land_within (a b : Z) : Z.land a (Z.lnot b) = 0 -> Z.land a b = a.
Proof.
  intros Hz. apply Z.bits_inj'. intros n Hn.
  rewrite Z.land_spec.
  assert (Hbit : Z.testbit (Z.land a (Z.lnot b)) n = false)
    by (rewrite Hz; apply Z.bits_0).
  rewrite Z.land_spec, Z.lnot_spec in Hbit by exact Hn.
  destruct (Z.testbit a n), (Z.testbit b n); cbn in *; congruence.
Qed.

(** In a state the manager can be in, [ButtonState] on an attached touchpad
    with a recognized mask that differs from the stored one sends, after
    [ResetError], the key [BTN_BACK] (a press if the back-button bit is set
    in the new mask, a release if not) and one barrier, stores the mask and
    returns the injector's error. *)
Theorem ButtonState_change_emitted (n : nat) (i buttons : Z)
    self touchpad inj :
  reachable n self ->
  0 <= i < kTouchpads self ->
  self !! Z.to_nat i = Some touchpad ->
  injector touchpad = Some inj ->
  Z.land buttons (Z.lnot AMOTION_EVENT_BUTTON_BACK) = 0 ->
  buttons <> last_motion_event_buttons touchpad ->
  exists inj',
    ButtonState i buttons self
      = Some (GetError inj',
              <[Z.to_nat i :=
                  {| owned_injector := owned_injector touchpad;
                     injector := Some inj';
                     last_device_x := last_device_x touchpad;
                     last_device_y := last_device_y touchpad;
                     touches := touches touchpad;
                     last_motion_event_buttons := buttons |}]> self) /\
    received inj'
      = received inj
        ++ [ResetError;
            SendKey BTN_BACK
              (if Z.land buttons AMOTION_EVENT_BUTTON_BACK =? 0
               then KEY_RELEASE else KEY_PRESS);
            SendSynReport].
Proof.
  intros Hreach [Hi Hlt] Hlook Hinj Hrec Hne.
  pose proof (reachable_buttons_recognized n self Hreach) as Hinv.
  pose proof (proj1 (Forall_lookup _ _) Hinv _ touchpad Hlook) as Hlast.
  cbv beta in Hlast.
  unfold ButtonState. rewrite (index_check_passes i self touchpad Hi Hlook), Hlook.
  cbn [mbind option_bind]. rewrite lxor_eqb_0.
  destruct (Z.eqb_spec (last_motion_event_buttons touchpad) buttons) as [Heq|_];
    [congruence|].
  rewrite Hrec, Hinj. cbn [Z.eqb negb].
  assert (Hchanged : Z.land (Z.lxor (last_motion_event_buttons touchpad) buttons)
                       AMOTION_EVENT_BUTTON_BACK <> 0).
  { rewrite land_within.
    - intros Hz. apply Z.lxor_eq in Hz. congruence.
    - apply Z.bits_inj'. intros k Hk.
      assert (H1 : Z.testbit (Z.land (last_motion_event_buttons touchpad)
                      (Z.lnot AMOTION_EVENT_BUTTON_BACK)) k = false)
        by (rewrite Hlast; apply Z.bits_0).
      assert (H2 : Z.testbit (Z.land buttons
                      (Z.lnot AMOTION_EVENT_BUTTON_BACK)) k = false)
        by (rewrite Hrec; apply Z.bits_0).
      rewrite Z.land_spec, Z.lnot_spec in H1, H2 by exact Hk.
      rewrite Z.land_spec, Z.lxor_spec, Z.lnot_spec, Z.bits_0 by exact Hk.
      destruct (Z.testbit (last_motion_event_buttons touchpad) k),
        (Z.testbit buttons k), (Z.testbit AMOTION_EVENT_BUTTON_BACK k);
        cbn in *; congruence. }
  destruct (Z.eqb_spec (Z.land (Z.lxor (last_motion_event_buttons touchpad) buttons)
                          AMOTION_EVENT_BUTTON_BACK) 0) as [|_]; [contradiction|].
  cbn [negb]. eexists. split; [reflexivity|].
  destruct (Z.land buttons AMOTION_EVENT_BUTTON_BACK =? 0); cbn [negb];
    rewrite ?received_invoke, <- ?app_assoc; reflexivity.
Qed.

(** On an attached touchpad a [ButtonState] with a recognized mask makes a
    second [ButtonState] with the same mask a no-op: it returns 0, makes no
    call on the injector and leaves the manager as the first call left
    it. *)
Theorem ButtonState_repeated_is_noop (i buttons : Z) self touchpad inj :
  0 <= i < kTouchpads self ->
  self !! Z.to_nat i = Some touchpad ->
  injector touchpad = Some inj ->
  Z.land buttons (Z.lnot AMOTION_EVENT_BUTTON_BACK) = 0 ->
  exists status1 self1,
    ButtonState i buttons self = Some (status1, self1) /\
    ButtonState i buttons self1 = Some (0, self1).
Proof.
  intros [Hi Hlt] Hlook Hinj Hrec.
  pose proof (index_check_passes i self touchpad Hi Hlook) as Hidx.
  destruct (Z.eqb_spec (last_motion_event_buttons touchpad) buttons) as [Heq|Hne].
  - exists 0, self.
    assert (E : ButtonState i buttons self = Some (0, self)).
    { unfold ButtonState. rewrite Hidx, Hlook. cbn [mbind option_bind].
      rewrite lxor_eqb_0, Heq, Z.eqb_refl. reflexivity. }
    split; exact E.
  - eexists _, _. split.
    + unfold ButtonState at 1. rewrite Hidx, Hlook. cbn [mbind option_bind].
      rewrite lxor_eqb_0.
      destruct (Z.eqb_spec (last_motion_event_buttons touchpad) buttons);
        [contradiction|].
      rewrite Hrec, Hinj. cbn [Z.eqb negb]. reflexivity.
    + unfold ButtonState.
      rewrite (index_check_passes i _ _ Hi (lookup_insert_same _ _ touchpad _ Hlook)).
      rewrite (lookup_insert_same _ _ touchpad _ Hlook).
      cbn [mbind option_bind last_motion_event_buttons].
      rewrite Z.lxor_nilpotent. reflexivity.
Qed.

End Sequences.

(** ** Shape of the two conversions *)

Section Conversions.

Lemma normalized_finite (v : float) : normalized v -> is_finite v = true.
Proof.
  intros (_ & H0 & H1). destruct v as [s|s| |s m e]; try reflexivity;
    try discriminate. destruct s; discriminate.
Qed.

Lemma scroll_delta_finite (v : float) : scroll_delta v -> is_finite v = true.
Proof.
  intros (_ & H0 & H1). destruct v as [s|s| |s m e]; try reflexivity;
    try discriminate. destruct s; discriminate.
Qed.

(** The device coordinate grows with the normalized coordinate: of two
    normalized values, the one that compares lower or equal gets the lower
    or equal device coordinate, on either axis. *)
Theorem device_coordinate_monotone (v w : float) (extent : Z) :
  extent = kWidth \/ extent = kHeight ->
  normalized v -> normalized w -> fle v w = true ->
  exists dv dw,
    device_coordinate v extent = Some dv /\
    device_coordinate w extent = Some dw /\
    dv <= dw.
Proof.
  intros Hext Hv Hw Hle.
  assert (Hextent : extent = 0x10000) by (destruct Hext; assumption).
  subst extent.
  pose proof (normalized_finite v Hv) as Hfv.
  pose proof (normalized_finite w Hw) as Hfw.
  destruct Hv as (Hv & Hv0 & Hv1). destruct Hw as (Hw & Hw0 & Hw1).
  destruct (device_coordinate_exact v Hv Hv0 Hv1) as [-> _].
  destruct (device_coordinate_exact w Hw Hw0 Hw1) as [-> _].
  eexists _, _. split; [reflexivity|]. split; [reflexivity|].
  apply Qfloor_resp_le, Qmult_le_compat_r; [|discriminate].
  apply (fle_SF2Q v w Hv Hw Hfv Hfw), Hle.
Qed.

Lemma SF2Q_opp (v : float) : SF2Q (SFopp v) == - SF2Q v.
Proof.
  destruct v as [s|s| |s m e]; try reflexivity. cbn [SFopp SF2Q].
  destruct s; cbn [negb cond_Zopp]; rewrite ?inject_Z_opp; ring.
Qed.

Lemma scroll_delta_opp (v : float) : scroll_delta v -> scroll_delta (SFopp v).
Proof.
  intros Hd. pose proof (scroll_delta_finite v Hd) as Hf.
  destruct Hd as (Hv & Hlo & Hhi).
  assert (Hv' : is_float (SFopp v)) by (destruct v; exact Hv).
  assert (Hf' : is_finite (SFopp v) = true) by (destruct v; exact Hf).
  apply (fle_SF2Q f_m1_0 v eq_refl Hv eq_refl Hf) in Hlo.
  apply (fle_SF2Q v f_1_0 Hv eq_refl Hf eq_refl) in Hhi.
  assert (H1 : SF2Q f_1_0 == 1) by reflexivity.
  assert (Hm1 : SF2Q f_m1_0 == - (1)) by reflexivity.
  rewrite H1 in Hhi. rewrite Hm1 in Hlo.
  split; [exact Hv'|]. split.
  - apply (fle_SF2Q f_m1_0 _ eq_refl Hv' eq_refl Hf').
    rewrite Hm1, SF2Q_opp. apply Qopp_le_compat, Hhi.
  - apply (fle_SF2Q _ f_1_0 Hv' eq_refl Hf' eq_refl).
    rewrite H1, SF2Q_opp. apply Qopp_le_compat in Hlo.
    rewrite Qopp_involutive in Hlo. exact Hlo.
Qed.

Lemma scroll_ceiling (s : bool) (m : positive) (e : Z) :
  Qceiling (Qabs (4 * SF2Q (S754_finite s m e))) = - Z.shiftl (Z.neg m) (e + 2).
Proof.
  change (Z.neg m) with (- Z.pos m). rewrite <- Qceiling_scaled.
  apply Qceiling_comp. cbn [SF2Q].
  rewrite Qpow2_add, !Qabs_Qmult. change (2 ^ 2)%Q with 4%Q.
  rewrite (Qabs_pos (2 ^ e)) by (apply Qlt_le_weak, Qpower_0_lt; reflexivity).
  change (Qabs 4) with 4%Q.
  assert (Qabs (inject_Z (cond_Zopp s (Z.pos m))) == inject_Z (Z.pos m)) as ->
    by (destruct s; reflexivity).
  ring.
Qed.

Lemma scale_relative_scroll_finite (s : bool) (m : positive) (e : Z) :
  scroll_delta (S754_finite s m e) ->
  scale_relative_scroll (S754_finite s m e)
    = Some (cond_Zopp s (- Z.shiftl (Z.neg m) (e + 2))) /\
  1 <= - Z.shiftl (Z.neg m) (e + 2) <= 4.
Proof.
  intros (Hv & Hlo & Hhi).
  pose proof (fabs_le_1_inv s m e Hv Hlo Hhi) as (He & Hm).
  split; [|apply scroll_magnitude_bounds; assumption].
  rewrite (scale_relative_scroll_exact _ Hv Hlo Hhi), scroll_ceiling.
  cbn [SF2Q]. rewrite Qsign_scaled. f_equal.
  destruct s; cbn [cond_Zopp Z.sgn Z.opp]; lia.
Qed.

(** For a delta in [[-1, 1]] the quantized scroll value lies in [[-4, 4]],
    has the sign of the delta, and the opposite delta gives the opposite
    value. *)
Theorem scale_relative_scroll_bounded (v : float) :
  scroll_delta v ->
  exists q,
    scale_relative_scroll v = Some q /\
    -4 <= q <= 4 /\
    Z.sgn q = Qsign (SF2Q v) /\
    scale_relative_scroll (SFopp v) = Some (- q).
Proof.
  intros Hd. pose proof (scroll_delta_opp v Hd) as Hd'.
  pose proof (scroll_delta_finite v Hd) as Hf.
  destruct v as [s|s| |s m e]; try discriminate.
  - exists 0. repeat split; discriminate.
  - destruct (scale_relative_scroll_finite s m e Hd) as [Hq Hc].
    destruct (scale_relative_scroll_finite (negb s) m e Hd') as [Hq' _].
    eexists. split; [exact Hq|]. split; [|split].
    + destruct s; cbn [cond_Zopp]; lia.
    + cbn [SF2Q]. rewrite Qsign_scaled.
      destruct s; cbn [cond_Zopp Z.sgn]; lia.
    + cbn [SFopp]. rewrite Hq'. f_equal.
      destruct s; cbn [cond_Zopp negb]; lia.
Qed.

End Conversions.

(** ** Repeated scrolls *)

Section RepeatedScroll.

Context `{Declarations}.

Implicit Types (self : list Touchpad) (touchpad : Touchpad) (inj : EvdevInjector).

Lemma Scroll_validated (i : Z) (x y : float) self touchpad inj :
  0 <= i -> self !! Z.to_nat i = Some touchpad ->
  injector touchpad = Some inj ->
  scroll_delta x -> scroll_delta y ->
  exists inj',
    Scroll i x y self
      = Some (GetError inj',
              <[Z.to_nat i :=
                  set_injector (owned_injector touchpad) (Some inj') touchpad]>
                self) /\
    received inj' = received inj ++ Scroll_calls (quantized x) (quantized y).
Proof.
  intros Hi Hlook Hinj Hx Hy.
  pose proof (scroll_delta_accepted x Hx) as Hax.
  pose proof (scroll_delta_accepted y Hy) as Hay.
  destruct Hx as (Hvx & Hx0 & Hx1). destruct Hy as (Hvy & Hy0 & Hy1).
  pose proof (scale_relative_scroll_exact x Hvx Hx0 Hx1) as Hsx.
  pose proof (scale_relative_scroll_exact y Hvy Hy0 Hy1) as Hsy.
  unfold Scroll. rewrite (index_check_passes i self touchpad Hi Hlook).
  apply orb_false_elim in Hax as [-> ->]. apply orb_false_elim in Hay as [-> ->].
  cbn [orb mbind option_bind]. rewrite Hlook. cbn [mbind option_bind].
  rewrite Hinj, Hsx, Hsy. cbn [mbind option_bind].
  eexists. split; [reflexivity|]. unfold Scroll_calls, quantized.
  destruct (_ =? 0), (_ =? 0); cbn [negb orb andb];
    rewrite ?received_invoke, <- ?app_assoc; reflexivity.
Qed.

(** [Scroll] does not suppress repetitions: a second [Scroll] with the same
    deltas on an attached touchpad makes the same calls as the first, so
    that the injector receives every relative event and barrier twice. *)
Theorem Scroll_repeated_emits_again (i : Z) (x y : float) self touchpad inj :
  0 <= i < kTouchpads self ->
  self !! Z.to_nat i = Some touchpad ->
  injector touchpad = Some inj ->
  scroll_delta x -> scroll_delta y ->
  exists status1 self1 status2 self2 touchpad2 inj2,
    Scroll i x y self = Some (status1, self1) /\
    Scroll i x y self1 = Some (status2, self2) /\
    self2 !! Z.to_nat i = Some touchpad2 /\
    injector touchpad2 = Some inj2 /\
    received inj2
      = received inj ++ Scroll_calls (quantized x) (quantized y)
                     ++ Scroll_calls (quantized x) (quantized y).
Proof.
  intros [Hi Hlt] Hlook Hinj Hx Hy.
  destruct (Scroll_validated i x y self touchpad inj Hi Hlook Hinj Hx Hy)
    as (inj1 & E1 & Hr1).
  destruct (Scroll_validated i x y _ _ inj1 Hi
              (lookup_insert_same (Z.to_nat i) self touchpad
                 (set_injector (owned_injector touchpad) (Some inj1) touchpad)
                 Hlook) eq_refl Hx Hy)
    as (inj2 & E2 & Hr2).
  eexists _, _, _, _, _, inj2. split; [exact E1|]. split; [exact E2|].
  split; [eapply lookup_insert_same, (lookup_insert_same _ _ touchpad), Hlook|].
  split; [reflexivity|]. rewrite Hr2, Hr1, <- app_assoc. reflexivity.
Qed.

End RepeatedScroll.

(** ** Runs without NaN *)

Section DefinedRuns.

Context `{Declarations}.

Implicit Types (self : list Touchpad) (touchpad : Touchpad).

Lemma index_check_in_range (i : Z) self :
  (i <? 0) || (i >=? kTouchpads self) = false -> 0 <= i < kTouchpads self.
Proof.
  rewrite Z.geb_leb. intros Hcheck. apply orb_false_elim in Hcheck as [H0 Hn].
  apply Z.ltb_ge in H0. apply Z.leb_gt in Hn. split; assumption.
Qed.

(** A binary32 value the range test of [Scroll] lets through is a NaN or a
    delta of [[-1, 1]]. *)
Lemma accepted_delta (v : float) :
  is_float v -> flt v f_m1_0 || fgt v f_1_0 = false ->
  v = S754_nan \/ scroll_delta v.
Proof.
  intros Hv Htest. destruct v as [s|s| |s m e].
  - right. repeat split.
  - destruct s; discriminate.
  - left. reflexivity.
  - right. apply orb_false_elim in Htest as [H0 H1].
    split; [exact Hv|]. split.
    + apply (fle_SF2Q f_m1_0 _ eq_refl Hv eq_refl eq_refl).
      apply Qnot_lt_le. intros Hlt.
      apply (flt_SF2Q _ f_m1_0 Hv eq_refl eq_refl eq_refl) in Hlt. congruence.
    + apply (fle_SF2Q _ f_1_0 Hv eq_refl eq_refl eq_refl).
      apply Qnot_lt_le. intros Hlt.
      apply (flt_SF2Q f_1_0 _ eq_refl Hv eq_refl eq_refl) in Hlt.
      unfold fgt in H1. unfold flt in Hlt. congruence.
Qed.

Lemma Touch_defined (i : Z) (x y pressure : float) self :
  is_float x -> is_float y -> x <> S754_nan -> y <> S754_nan ->
  exists result, Touch i x y pressure self = Some result.
Proof.
  intros Hx Hy Hnx Hny.
  destruct ((i <? 0) || (i >=? kTouchpads self)) eqn:Hidx;
    [unfold Touch; rewrite Hidx; eauto|].
  destruct (index_in_range_lookup i self (index_check_in_range i self Hidx))
    as [_ [touchpad Hlook]].
  destruct (flt x f_0_0 || fge x f_1_0) eqn:Htx;
    [unfold Touch; rewrite Hidx, Htx; cbn [orb]; eauto|].
  destruct (flt y f_0_0 || fge y f_1_0) eqn:Hty.
  { unfold Touch. rewrite Hidx, Htx. cbn [orb]. rewrite Hty. eauto. }
  destruct (accepted_coordinate x Hx Htx) as [|Hnormx]; [contradiction|].
  destruct (accepted_coordinate y Hy Hty) as [|Hnormy]; [contradiction|].
  rewrite (Touch_validated i x y pressure self touchpad
             (proj1 (index_check_in_range i self Hidx)) Hlook Hnormx Hnormy).
  cbv zeta. destruct (injector touchpad); eauto.
Qed.

Lemma ButtonState_defined (i buttons : Z) self :
  exists result, ButtonState i buttons self = Some result.
Proof.
  unfold ButtonState.
  destruct ((i <? 0) || (i >=? kTouchpads self)) eqn:Hidx; [eauto|].
  destruct (index_in_range_lookup i self (index_check_in_range i self Hidx))
    as [_ [touchpad ->]].
  cbn [mbind option_bind].
  destruct (_ =? 0); [eauto|]. destruct (negb _); [eauto|].
  destruct (injector touchpad); eauto.
Qed.

Lemma Scroll_defined (i : Z) (x y : float) self :
  is_float x -> is_float y -> x <> S754_nan -> y <> S754_nan ->
  exists result, Scroll i x y self = Some result.
Proof.
  intros Hx Hy Hnx Hny.
  destruct ((i <? 0) || (i >=? kTouchpads self)) eqn:Hidx;
    [unfold Scroll; rewrite Hidx; eauto|].
  destruct (index_in_range_lookup i self (index_check_in_range i self Hidx))
    as [_ [touchpad Hlook]].
  destruct (flt x f_m1_0 || fgt x f_1_0) eqn:Htx;
    [unfold Scroll; rewrite Hidx, Htx; cbn [orb]; eauto|].
  destruct (flt y f_m1_0 || fgt y f_1_0) eqn:Hty.
  { unfold Scroll. rewrite Hidx, Htx. cbn [orb]. rewrite Hty. eauto. }
  destruct (accepted_delta x Hx Htx) as [|Hdx]; [contradiction|].
  destruct (accepted_delta y Hy Hty) as [|Hdy]; [contradiction|].
  destruct (injector touchpad) as [inj|] eqn:Hinj.
  - destruct (Scroll_validated i x y self touchpad inj
                (proj1 (index_check_in_range i self Hidx)) Hlook Hinj Hdx Hdy)
      as (inj' & E & _).
    eauto.
  - unfold Scroll. rewrite Hidx, Htx. cbn [orb]. rewrite Hty, Hlook.
    cbn [mbind option_bind]. rewrite Hinj. eauto.
Qed.

Lemma perform_defined (op : operation) self :
  operation_numeric op -> exists self', perform op self = Some self'.
Proof.
  destruct op as [| | |i x y p|i b|i x y]; cbn [perform operation_numeric];
    intros Hop; eauto.
  - destruct Hop as (Hx & Hy & Hnx & Hny).
    destruct (Touch_defined i x y p self Hx Hy Hnx Hny) as [r ->]. cbn. eauto.
  - destruct (ButtonState_defined i b self) as [r ->]. cbn. eauto.
  - destruct Hop as (Hx & Hy & Hnx & Hny).
    destruct (Scroll_defined i x y self Hx Hy Hnx Hny) as [r ->]. cbn. eauto.
Qed.

Lemma perform_position_recorded (op : operation) self self' :
  operation_numeric op ->
  Forall position_recorded self ->
  perform op self = Some self' ->
  Forall position_recorded self'.
Proof.
  intros Hop Hinv. destruct op as [| | |i x y p|i b|i x y]; cbn [perform].
  - intros [= <-]. apply Reset_Forall. left. split; reflexivity.
  - intros [= <-]. apply Attach_Forall; [|exact Hinv].
    unfold position_recorded. intros t t' [= -> -> _] _. auto.
  - intros [= <-]. apply Reset_Forall. left. split; reflexivity.
  - destruct (Touch i x y p self) as [[status s]|] eqn:E; [|discriminate].
    intros [= <-]. destruct Hop as (Hx & Hy & _).
    apply Touch_shape in E
      as [->|(t & t' & dx & dy & _ & Hlook & -> & Htx & Hty & Hdx & Hdy & _ & _ & _
              & [(_ & _ & Hlx & Hly)|(_ & _ & Hlx & Hly)])];
      [exact Hinv| |]; (apply Forall_insert; [exact Hinv|]);
      unfold position_recorded; rewrite Hlx, Hly.
    + exact (proj1 (Forall_lookup _ _) Hinv _ t Hlook).
    + right. split.
      * exact (device_coordinate_accepted x kWidth dx eq_refl Hx Htx Hdx).
      * exact (device_coordinate_accepted y kHeight dy eq_refl Hy Hty Hdy).
  - destruct (ButtonState i b self) as [[status s]|] eqn:E; [|discriminate].
    intros [= <-].
    apply ButtonState_shape in E as [->|(t & inj & inj' & _ & Hlook & _ & _ & ->)];
      [exact Hinv|].
    apply Forall_insert; [exact Hinv|].
    exact (proj1 (Forall_lookup _ _) Hinv _ t Hlook).
  - destruct (Scroll i x y self) as [[status s]|] eqn:E; [|discriminate].
    intros [= <-].
    apply Scroll_shape in E as [->|(t & inj & inj' & _ & Hlook & _ & ->)];
      [exact Hinv|].
    apply Forall_insert; [exact Hinv|].
    exact (proj1 (Forall_lookup _ _) Hinv _ t Hlook).
Qed.

(** A sequence of operations whose coordinates and deltas are binary32
    values other than NaN runs to its end on a created manager, every
    conversion in it being defined, and leaves in every touchpad a last
    position that is the unset sentinel in both coordinates or lies within
    [[0, kWidth - 1] x [0, kHeight - 1]].  (With a NaN coordinate the range
    test of [Touch] does not fire and the conversion to [int32_t] has no
    defined result; such runs are outside this statement.) *)
Theorem positions_recorded_in_range (ops : list operation) (n : nat) :
  Forall operation_numeric ops ->
  exists self,
    perform_all ops (Create n) = Some self /\
    Forall position_recorded self.
Proof.
  intros Hops.
  assert (Hstart : Forall position_recorded (Create n))
    by (apply Reset_Forall; left; split; reflexivity).
  revert Hstart. generalize (Create n) as start.
  induction Hops as [|op ops Hop _ IH]; intros start Hstart; cbn [perform_all].
  - exists start. split; [reflexivity | exact Hstart].
  - destruct (perform_defined op start Hop) as [next E]. rewrite E.
    cbn [mbind option_bind]. apply IH.
    eapply perform_position_recorded; eassumption.
Qed.

End DefinedRuns.

(** ** Further runs on a manager of two touchpads *)

Section FurtherRuns.

#[local] Existing Instance platform.

Lemma index_2_out_of_range : 2 < 0 \/ kTouchpads attached <= 2.
Proof. right. discriminate. Defined.

Lemma mask_8_not_0 : 8 <> 0.
Proof. discriminate. Defined.

Lemma mask_8_recognized : Z.land 8 (Z.lnot AMOTION_EVENT_BUTTON_BACK) = 0.
Proof. reflexivity. Defined.

Lemma used_is_reached :
  perform_all [OpAttach; OpTouch 0 f_0_5 f_0_25 f_1_0; OpButtonState 0 8]
    (Create 2) = Some used.
Proof. reflexivity. Defined.

Lemma f_0_5_not_nan : f_0_5 <> S754_nan.
Proof. discriminate. Defined.

Lemma f_0_25_not_nan : f_0_25 <> S754_nan.
Proof. discriminate. Defined.

Lemma used_operations_numeric :
  Forall operation_numeric
    [OpAttach; OpTouch 0 f_0_5 f_0_25 f_1_0; OpButtonState 0 8].
Proof.
  apply Forall_cons_2; [exact I|].
  apply Forall_cons_2;
    [exact (conj eq_refl (conj eq_refl (conj f_0_5_not_nan f_0_25_not_nan)))|].
  apply Forall_cons_2; [exact I | apply Forall_nil_2].
Defined.

Lemma index_out_of_range_rejected_witness :
  Touch 2 S754_nan f_0_25 f_1_0 attached = Some (EINVAL, attached) /\
  ButtonState 2 1 attached = Some (EINVAL, attached) /\
  Scroll 2 f_2_0 f_0_0 attached = Some (EINVAL, attached).
Proof.
  exact (index_out_of_range_rejected 2 S754_nan f_0_25 f_1_0 f_2_0 f_0_0 1
           attached index_2_out_of_range).
Defined.

Lemma Touch_coordinate_range_test_witness :
  Touch 0 f_m0_5 f_0_25 f_1_0 attached = Some (EINVAL, attached).
Proof.
  apply (Touch_coordinate_range_test 0 f_m0_5 f_0_25 f_1_0 attached
           (index_0_in_range attached eq_refl) eq_refl eq_refl).
  left. right. split; [reflexivity|]. left. reflexivity.
Defined.

Lemma Scroll_delta_range_test_witness :
  Scroll 0 f_2_0 f_0_0 attached = Some (EINVAL, attached).
Proof.
  apply (Scroll_delta_range_test 0 f_2_0 f_0_0 attached
           (index_0_in_range attached eq_refl) eq_refl eq_refl).
  left. right. split; [reflexivity|]. right. reflexivity.
Defined.

Lemma operations_keep_other_touchpads_witness :
  exists self',
    perform (OpTouch 0 f_0_5 f_0_25 f_1_0) attached = Some self' /\
    kTouchpads self' = kTouchpads attached /\
    self' !! 1%nat = attached !! 1%nat.
Proof.
  eexists. split; [reflexivity|].
  match goal with
  | |- kTouchpads ?s = _ /\ _ =>
      destruct (operations_keep_other_touchpads
                  (OpTouch 0 f_0_5 f_0_25 f_1_0) attached s eq_refl)
        as [Hlen Hframe]
  end.
  split; [exact Hlen|]. apply (Hframe 0); [reflexivity | discriminate].
Defined.

Lemma event_operations_separate_fields_witness :
  exists status self',
    Scroll 0 f_0_1 f_0_0 used = Some (status, self') /\
    touch_state <$> self' = touch_state <$> used /\
    injectors_kept used self' /\
    Touch_effect 0 f_0_5 f_0_5 f_1_0 self'
      = Touch_effect 0 f_0_5 f_0_5 f_1_0 used.
Proof.
  eexists _, _. split; [reflexivity|].
  split;
    [exact (proj1 (proj1 (proj1 (event_operations_separate_fields
                                   0 f_0_5 f_0_25 f_1_0 f_0_1 f_0_0 8 used)
                            _ _ eq_refl)))|].
  split;
    [exact (proj1 (proj2 (proj1 (event_operations_separate_fields
                                   0 f_0_5 f_0_25 f_1_0 f_0_1 f_0_0 8 used)
                            _ _ eq_refl)))|].
  exact (proj1 (proj2 (proj2 (proj1 (event_operations_separate_fields
                                       0 f_0_5 f_0_25 f_1_0 f_0_1 f_0_0 8 used)
                                _ _ eq_refl)))
           0 f_0_5 f_0_5 f_1_0).
Defined.

Lemma reachable_history_in_range_witness :
  kTouchpads attached = 2 /\ Forall (fun t => 0 <= touches t <= 3) attached.
Proof. exact (reachable_history_in_range 2 attached reachable_attached). Defined.

Lemma positions_recorded_in_range_witness :
  exists self,
    perform_all [OpAttach; OpTouch 0 f_0_5 f_0_25 f_1_0; OpButtonState 0 8]
      (Create 2) = Some self /\
    Forall position_recorded self.
Proof.
  exact (positions_recorded_in_range _ 2 used_operations_numeric).
Defined.

Lemma Detach_then_event_operations_witness :
  Touch 0 f_0_5 f_0_25 f_1_0 (snd (Detach used))
    = Some (ERROR_SEQUENCING,
            <[0%nat := set_touches 1 detached_touchpad]> (snd (Detach used))) /\
  Scroll 0 f_0_1 f_0_0 (snd (Detach used))
    = Some (ERROR_SEQUENCING, snd (Detach used)) /\
  ButtonState 0 8 (snd (Detach used))
    = Some (ERROR_SEQUENCING, snd (Detach used)) /\
  ButtonState 0 0 (snd (Detach used)) = Some (0, snd (Detach used)).
Proof.
  exact (Detach_then_event_operations 0 f_0_5 f_0_25 f_1_0 f_0_1 f_0_0 8 used
           (index_0_in_range used eq_refl) normalized_0_5 normalized_0_25
           scroll_delta_0_1 scroll_delta_0_0 mask_8_recognized mask_8_not_0).
Defined.

(** Touchpad 0 reports error 16 and touchpad 1 none: [Attach] returns 16. *)
Lemma Attach_status_witness : fst (@Attach first_device_busy detached) = 16.
Proof.
  apply (proj2 (@Attach_status first_device_busy detached)
           [] detached_touchpad [detached_touchpad] eq_refl).
  - discriminate.
  - intros [|n] t Hn; [injection Hn as <-; reflexivity | discriminate Hn].
Defined.

Lemma Touch_repeated_emits_nothing_witness :
  exists status1 self1 touchpad1 inj1,
    Touch 0 f_0_5 f_0_25 f_1_0 attached = Some (status1, self1) /\
    self1 !! 0%nat = Some touchpad1 /\
    injector touchpad1 = Some inj1 /\
    exists touchpad2,
      Touch 0 f_0_5 f_0_25 f_1_0 self1
        = Some (GetError (inj1 ~> ResetError), <[0%nat := touchpad2]> self1) /\
      injector touchpad2 = Some (inj1 ~> ResetError) /\
      touch_state touchpad2 = (32768, 16384, 3).
Proof.
  exact (Touch_repeated_emits_nothing 0 f_0_5 f_0_25 f_1_0 attached
           (attached_touchpad 0) (Attach_configure 0 new_EvdevInjector)
           (index_0_in_range attached eq_refl) eq_refl eq_refl
           normalized_0_5 normalized_0_25).
Defined.

Lemma Touch_history_two_samples_witness :
  exists status1 self1 status2 self2 touchpad2,
    Touch 0 f_0_5 f_0_25 f_1_0 used = Some (status1, self1) /\
    Touch 0 f_0_25 f_0_5 f_0_0 self1 = Some (status2, self2) /\
    self2 !! 0%nat = Some touchpad2 /\
    touches touchpad2 = 2.
Proof.
  eapply (Touch_history_two_samples 0 f_0_5 f_0_25 f_1_0 f_0_25 f_0_5 f_0_0 used).
  - exact (index_0_in_range used eq_refl).
  - reflexivity.
  - exact normalized_0_5.
  - exact normalized_0_25.
  - exact normalized_0_25.
  - exact normalized_0_5.
Defined.

Lemma press_while_detached_is_lost_witness :
  exists self1 self2 touchpad2 inj2,
    Touch 0 f_0_5 f_0_25 f_1_0 detached = Some (ERROR_SEQUENCING, self1) /\
    snd (Attach self1) = self2 /\
    Touch 0 f_0_5 f_0_25 f_1_0 self2
      = Some (GetError inj2, <[0%nat := touchpad2]> self2) /\
    injector touchpad2 = Some inj2 /\
    touches touchpad2 = 3 /\
    received inj2
      = received (Attach_configure 0 new_EvdevInjector)
        ++ [ResetError; SendMultiTouchXY 0 0 32768 16384; SendSynReport].
Proof.
  exact (press_while_detached_is_lost 0 f_0_5 f_0_25 f_1_0 f_0_5 f_0_25 f_1_0
           detached detached_touchpad (index_0_in_range detached eq_refl)
           eq_refl eq_refl normalized_0_5 normalized_0_25 normalized_0_5
           normalized_0_25 eq_refl eq_refl).
Defined.

Lemma ButtonState_change_emitted_witness :
  exists inj',
    ButtonState 0 8 attached
      = Some (GetError inj',
              <[0%nat :=
                  {| owned_injector := true;
                     injector := Some inj';
                     last_device_x := INT32_MIN;
                     last_device_y := INT32_MIN;
                     touches := 0;
                     last_motion_event_buttons := 8 |}]> attached) /\
    received inj'
      = received (Attach_configure 0 new_EvdevInjector)
        ++ [ResetError; SendKey BTN_BACK KEY_PRESS; SendSynReport].
Proof.
  exact (ButtonState_change_emitted 2 0 8 attached (attached_touchpad 0)
           (Attach_configure 0 new_EvdevInjector) reachable_attached
           (index_0_in_range attached eq_refl) eq_refl eq_refl
           mask_8_recognized mask_8_not_0).
Defined.

Lemma ButtonState_repeated_is_noop_witness :
  exists status1 self1,
    ButtonState 0 8 attached = Some (status1, self1) /\
    ButtonState 0 8 self1 = Some (0, self1).
Proof.
  exact (ButtonState_repeated_is_noop 0 8 attached (attached_touchpad 0)
           (Attach_configure 0 new_EvdevInjector)
           (index_0_in_range attached eq_refl) eq_refl eq_refl
           mask_8_recognized).
Defined.

Lemma device_coordinate_monotone_witness :
  exists dv dw,
    device_coordinate f_0_25 kWidth = Some dv /\
    device_coordinate f_0_5 kWidth = Some dw /\
    dv <= dw.
Proof.
  exact (device_coordinate_monotone f_0_25 f_0_5 kWidth (or_introl eq_refl)
           normalized_0_25 normalized_0_5 eq_refl).
Defined.

Lemma scale_relative_scroll_bounded_witness :
  exists q,
    scale_relative_scroll f_0_1 = Some q /\
    -4 <= q <= 4 /\
    Z.sgn q = 1 /\
    scale_relative_scroll (SFopp f_0_1) = Some (- q).
Proof. exact (scale_relative_scroll_bounded f_0_1 scroll_delta_0_1). Defined.

Lemma Scroll_repeated_emits_again_witness :
  exists status1 self1 status2 self2 touchpad2 inj2,
    Scroll 0 f_0_1 f_0_0 attached = Some (status1, self1) /\
    Scroll 0 f_0_1 f_0_0 self1 = Some (status2, self2) /\
    self2 !! 0%nat = Some touchpad2 /\
    injector touchpad2 = Some inj2 /\
    received inj2
      = received (Attach_configure 0 new_EvdevInjector)
        ++ [ResetError; SendRel REL_HWHEEL 1; SendSynReport]
        ++ [ResetError; SendRel REL_HWHEEL 1; SendSynReport].
Proof.
  exact (Scroll_repeated_emits_again 0 f_0_1 f_0_0 attached
           (attached_touchpad 0) (Attach_configure 0 new_EvdevInjector)
           (index_0_in_range attached eq_refl) eq_refl eq_refl
           scroll_delta_0_1 scroll_delta_0_0).
Defined.

(** The position a [Touch] compares with is the one of the call before it,
    whether that call sent it or not: after a press at (0.5, 0.25) and a
    release at (0.25, 0.25), which sends no position, a hover at
    (0.5, 0.25) sends the position of the press again. *)
Example Touch_compares_with_previous_call :
  (self ← perform_all [OpTouch 0 f_0_5 f_0_25 f_1_0;
                       OpTouch 0 f_0_25 f_0_25 f_0_0;
                       OpTouch 0 f_0_5 f_0_25 f_0_0] attached;
   touchpad ← self !! 0%nat;
   inj ← injector touchpad;
   Some (drop 7 (received inj)))
  = Some [ResetError; SendMultiTouchXY 0 0 32768 16384;
          SendKey BTN_TOUCH KEY_PRESS; SendSynReport;
          ResetError; SendKey BTN_TOUCH KEY_RELEASE; SendMultiTouchLift 0;
          SendSynReport;
          ResetError; SendMultiTouchXY 0 0 32768 16384; SendSynReport].
Proof. reflexivity. Qed.

End FurtherRuns.
